(** * Signal-to-event pipeline of the proctoring service

    A shallow embedding of
    - [app/services/proctoring_processing/detection_service.py]
      ([DetectionService], [ViolationTracker]) and
    - [app/services/proctoring_processing/video_processing_service.py]
      ([VideoProcessingService._generate_new_format_report]),
    together with the properties the specification states about them.

    Numbers.  Python [float] values (timestamps, angles, durations) are
    modelled by the rational number they denote: type [Q], exact arithmetic,
    boolean comparisons.  Every finite binary64 value is a rational, and the
    comparisons of the code agree with the comparisons on [Q] on such values.
    [None] is [option]'s [None]. *)

From Stdlib Require Import QArith Qabs Qround ZArith List String Ascii Bool Lia Lqa.
From Stdlib Require Import Sorting.Sorted Sorting.Permutation DecimalString.
Import ListNotations.

Open Scope Q_scope.

(* ================================================================== *)
(** ** Python numeric primitives used by the code *)
(* ================================================================== *)

Module Py.

(** [a < b] and [a >= b] on floats. *)
Definition ltb (a b : Q) : bool := negb (Qle_bool b a).
Definition geb (a b : Q) : bool := Qle_bool b a.

(** [max(a, b)]: the first argument is kept unless the second is larger. *)
Definition max (a b : Q) : Q := if ltb a b then b else a.

(** Rounding to the nearest integer, ties to even: the rounding mode of
    Python 3's [round]. *)
Definition round_half_even (q : Q) : Z :=
  let f := Qfloor q in
  let r := q - inject_Z f in
  if ltb r (1 # 2) then f
  else if ltb (1 # 2) r then (f + 1)%Z
  else if Z.even f then f else (f + 1)%Z.

(** [round(q, ndigits)] for a float [q]: the float stays a float. *)
Definition round (q : Q) (ndigits : nat) : Q :=
  let p := Pos.pow 10 (Pos.of_nat ndigits) in
  match ndigits with
  | O => inject_Z (round_half_even q)
  | S _ => Qmake (round_half_even (q * inject_Z (Zpos p))) p
  end.

(** [int(x)] truncates towards zero. *)
Definition int (q : Q) : Z := Z.quot (Qnum q) (Zpos (Qden q)).

(** [x // y] and [x % y] on floats, for a positive divisor. *)
Definition floordiv (x y : Q) : Q := inject_Z (Qfloor (x / y)).
Definition fmod (x y : Q) : Q := x - y * inject_Z (Qfloor (x / y)).

End Py.

(* ================================================================== *)
(** ** ViolationTracker *)
(* ================================================================== *)

(** The ten keys of [ViolationTracker.counts], in the order the
    dictionaries are built (and therefore iterated). *)
Inductive Category : Type :=
  | gaze_left | gaze_right | gaze_up | gaze_down
  | head_left | head_right | head_up | head_down
  | face_missing | multiple_faces.

Definition all_categories : list Category :=
  [gaze_left; gaze_right; gaze_up; gaze_down;
   head_left; head_right; head_up; head_down;
   face_missing; multiple_faces].

Definition Category_eq_dec (a b : Category) : {a = b} + {a <> b}.
Proof. decide equality. Defined.

Definition Category_eqb (a b : Category) : bool :=
  if Category_eq_dec a b then true else false.

(** The string each key is spelled with in the source. *)
Definition category_name (c : Category) : string :=
  match c with
  | gaze_left => "gaze_left" | gaze_right => "gaze_right"
  | gaze_up => "gaze_up" | gaze_down => "gaze_down"
  | head_left => "head_left" | head_right => "head_right"
  | head_up => "head_up" | head_down => "head_down"
  | face_missing => "face_missing" | multiple_faces => "multiple_faces"
  end%string.

(** A dictionary whose key set is the ten categories, with item
    assignment [d[k] = v]. *)
Definition CatMap (A : Type) : Type := Category -> A.

Definition set_item {A : Type} (d : CatMap A) (k : Category) (v : A) : CatMap A :=
  fun k' => if Category_eqb k k' then v else d k'.

(** One entry of [active_violations]. *)
Record ViolationState : Type := mkState {
  active : bool;
  start_time : Q;
  duration : Q;
  max_intensity : Q
}.

(** One entry of [violation_events]. *)
Record ViolationEvent : Type := mkEvent {
  ev_type : Category;
  ev_timestamp : Q;
  ev_duration : Q;
  ev_intensity : Q
}.

Record ViolationTracker : Type := mkTracker {
  counts : CatMap nat;
  timestamps : CatMap (list Q);
  active_violations : CatMap ViolationState;
  max_intensities : CatMap Q;
  violation_events : list ViolationEvent
}.

(** [ViolationTracker.__init__] *)
Definition tracker_init : ViolationTracker :=
  {| counts := fun _ => O;
     timestamps := fun _ => [];
     active_violations := fun _ => mkState false 0 0 0;
     max_intensities := fun _ => 0;
     violation_events := [] |}.

(** The debounce floor of [_end_violation]. *)
Definition min_duration : Q := 15 # 100.

Definition _start_violation (tr : ViolationTracker) (violation_type : Category)
    (timestamp intensity : Q) : ViolationTracker :=
  {| counts := counts tr;
     timestamps := timestamps tr;
     active_violations :=
       set_item (active_violations tr) violation_type
                (mkState true timestamp 0 intensity);
     max_intensities := max_intensities tr;
     violation_events := violation_events tr |}.

Definition _update_violation (tr : ViolationTracker) (violation_type : Category)
    (timestamp intensity : Q) : ViolationTracker :=
  let state := active_violations tr violation_type in
  let state' :=
    mkState (active state) (start_time state)
            (timestamp - start_time state)
            (Py.max (max_intensity state) intensity) in
  {| counts := counts tr;
     timestamps := timestamps tr;
     active_violations := set_item (active_violations tr) violation_type state';
     max_intensities :=
       set_item (max_intensities tr) violation_type
                (Py.max (max_intensities tr violation_type) (max_intensity state'));
     violation_events := violation_events tr |}.

Definition _end_violation (tr : ViolationTracker) (violation_type : Category)
    : ViolationTracker :=
  let state := active_violations tr violation_type in
  let tr1 :=
    if active state then
      if Py.geb (duration state) min_duration then
        {| counts :=
             set_item (counts tr) violation_type (S (counts tr violation_type));
           timestamps :=
             set_item (timestamps tr) violation_type
                      (timestamps tr violation_type ++ [Py.round (start_time state) 2]);
           active_violations := active_violations tr;
           max_intensities := max_intensities tr;
           violation_events :=
             violation_events tr ++
               [mkEvent violation_type (start_time state)
                        (Py.round (duration state) 1) (max_intensity state)] |}
      else tr
    else tr in
  {| counts := counts tr1;
     timestamps := timestamps tr1;
     active_violations :=
       set_item (active_violations tr1) violation_type
                (mkState false (start_time state) (duration state) (max_intensity state));
     max_intensities := max_intensities tr1;
     violation_events := violation_events tr1 |}.

Definition _check_and_update_violation (tr : ViolationTracker)
    (violation_type : Category) (condition : bool) (timestamp intensity : Q)
    : ViolationTracker :=
  let is_active := active (active_violations tr violation_type) in
  if condition then
    if negb is_active then _start_violation tr violation_type timestamp intensity
    else _update_violation tr violation_type timestamp intensity
  else
    if is_active then _end_violation tr violation_type
    else tr.

(** The [thresholds] dictionary, with the four keys [update] reads. *)
Record Thresholds : Type := mkThresholds {
  eye_horizontal : Q;
  eye_vertical : Q;
  yaw_threshold : Q;
  pitch_threshold : Q
}.

(** [x is not None and x < -t], [x is not None and x > t] and
    [abs(x) if x is not None else 0.0]. *)
Definition below (x : option Q) (t : Q) : bool :=
  match x with Some v => Py.ltb v (- t) | None => false end.
Definition above (x : option Q) (t : Q) : bool :=
  match x with Some v => Py.ltb t v | None => false end.
Definition abs_or_zero (x : option Q) : Q :=
  match x with Some v => Qabs v | None => 0 end.

Definition update (tr : ViolationTracker) (timestamp : Q)
    (gaze_h gaze_v yaw pitch : option Q) (num_faces : nat)
    (thresholds : Thresholds) : ViolationTracker :=
  let tr := _check_and_update_violation tr gaze_left
              (below gaze_h (eye_horizontal thresholds)) timestamp (abs_or_zero gaze_h) in
  let tr := _check_and_update_violation tr gaze_right
              (above gaze_h (eye_horizontal thresholds)) timestamp (abs_or_zero gaze_h) in
  let tr := _check_and_update_violation tr gaze_up
              (below gaze_v (eye_vertical thresholds)) timestamp (abs_or_zero gaze_v) in
  let tr := _check_and_update_violation tr gaze_down
              (above gaze_v (eye_vertical thresholds)) timestamp (abs_or_zero gaze_v) in
  let tr := _check_and_update_violation tr head_left
              (below yaw (yaw_threshold thresholds)) timestamp (abs_or_zero yaw) in
  let tr := _check_and_update_violation tr head_right
              (above yaw (yaw_threshold thresholds)) timestamp (abs_or_zero yaw) in
  let tr := _check_and_update_violation tr head_up
              (below pitch (pitch_threshold thresholds)) timestamp (abs_or_zero pitch) in
  let tr := _check_and_update_violation tr head_down
              (above pitch (pitch_threshold thresholds)) timestamp (abs_or_zero pitch) in
  let tr := _check_and_update_violation tr face_missing
              (Nat.eqb num_faces 0) timestamp 0 in
  _check_and_update_violation tr multiple_faces
              (Nat.ltb 1 num_faces) timestamp 0.

(** [finalize]: the loop over [active_violations.items()] visits the keys in
    insertion order. *)
Definition finalize (tr : ViolationTracker) : ViolationTracker :=
  fold_left
    (fun tr violation_type =>
       if active (active_violations tr violation_type)
       then _end_violation tr violation_type else tr)
    all_categories tr.

(** One sampled frame, as [process_video] hands it to
    [DetectionService.update_violations] ([roll] is passed and dropped). *)
Record FrameSignal : Type := mkFrame {
  timestamp : Q;
  gaze_h : option Q;
  gaze_v : option Q;
  yaw : option Q;
  pitch : option Q;
  roll : option Q;
  num_faces : nat
}.

Definition update_violations (tr : ViolationTracker) (f : FrameSignal)
    (thresholds : Thresholds) : ViolationTracker :=
  update tr (timestamp f) (gaze_h f) (gaze_v f) (yaw f) (pitch f)
         (num_faces f) thresholds.

(** The frame loop of [process_video], without and with the closing
    [finalize()]. *)
Definition feed (thresholds : Thresholds) (frames : list FrameSignal)
    (tr : ViolationTracker) : ViolationTracker :=
  fold_left (fun tr f => update_violations tr f thresholds) frames tr.

Definition run (thresholds : Thresholds) (frames : list FrameSignal)
    : ViolationTracker :=
  finalize (feed thresholds frames tracker_init).

(* ================================================================== *)
(** ** DetectionService: gaze smoothing *)
(* ================================================================== *)

(** [np.average(a, weights=w)]: [sum(a * w) / sum(w)]. *)
Definition np_sum (l : list Q) : Q := fold_left Qplus l 0.

Definition np_average (a weights : list Q) : Q :=
  np_sum (map (fun p => fst p * snd p) (combine a weights)) / np_sum weights.

(** [l[-n:]] *)
Definition lastn {A : Type} (n : nat) (l : list A) : list A :=
  skipn (List.length l - n) l.

Definition max_history_size : nat := 7.

(** The weights of [detect_gaze], oldest sample first. *)
Definition weights : list Q := [1 # 10; 15 # 100; 2 # 10; 25 # 100; 3 # 10].

Section GazeSmoothing.

(** [cv2.KalmanFilter] is an external library object.  [KF] is its state;
    [predict] and [correct] return [None] where the library raises. *)
Variable KF : Type.
Variable set_statePre : KF -> Q -> KF.
Variable predict : KF -> option KF.
Variable correct : KF -> Q -> option (KF * Q).

(** The fields of [DetectionService] the smoothing reads and writes. *)
Record GazeSmoother : Type := mkSmoother {
  kf_horizontal : KF;
  kf_vertical : KF;
  kalman_initialized : bool;
  gaze_history : list (Q * Q)
}.

Definition with_filters (s : GazeSmoother) (kh kv : KF) : GazeSmoother :=
  mkSmoother kh kv (kalman_initialized s) (gaze_history s).

Definition _smooth_gaze_with_kalman (s : GazeSmoother) (horizontal vertical : Q)
    : GazeSmoother * (Q * Q) :=
  if negb (kalman_initialized s) then
    (mkSmoother (set_statePre (kf_horizontal s) horizontal)
                (set_statePre (kf_vertical s) vertical)
                true (gaze_history s),
     (horizontal, vertical))
  else
    match predict (kf_horizontal s) with
    | None => (s, (horizontal, vertical))
    | Some kh1 =>
      match predict (kf_vertical s) with
      | None => (with_filters s kh1 (kf_vertical s), (horizontal, vertical))
      | Some kv1 =>
        match correct kh1 horizontal with
        | None => (with_filters s kh1 kv1, (horizontal, vertical))
        | Some (kh2, h_corrected) =>
          match correct kv1 vertical with
          | None => (with_filters s kh2 kv1, (horizontal, vertical))
          | Some (kv2, v_corrected) =>
              (with_filters s kh2 kv2, (h_corrected, v_corrected))
          end
        end
      end
    end.

(** The history update of [detect_gaze]: [append], then [pop(0)] when the
    list has grown past [max_history_size]. *)
Definition push_history (history : list (Q * Q)) (sample : Q * Q) : list (Q * Q) :=
  let history := history ++ [sample] in
  if Nat.ltb max_history_size (List.length history) then tl history else history.

(** The closing part of [detect_gaze], from the two raw angles on: the
    Kalman step, the rolling history, the weighted average and the
    rounding. *)
Definition smooth_gaze (s : GazeSmoother) (horizontal_angle vertical_angle : Q)
    : GazeSmoother * (Q * Q) :=
  let '(s, (horizontal_angle, vertical_angle)) :=
    _smooth_gaze_with_kalman s horizontal_angle vertical_angle in
  let history := push_history (gaze_history s) (horizontal_angle, vertical_angle) in
  let s := mkSmoother (kf_horizontal s) (kf_vertical s) (kalman_initialized s) history in
  let '(horizontal_angle, vertical_angle) :=
    if Nat.leb 5 (List.length history) then
      let recent_h := map fst (lastn 5 history) in
      let recent_v := map snd (lastn 5 history) in
      (np_average recent_h weights, np_average recent_v weights)
    else (horizontal_angle, vertical_angle) in
  (s, (Py.round horizontal_angle 2, Py.round vertical_angle 2)).

End GazeSmoothing.

Arguments mkSmoother {KF}.
Arguments kf_horizontal {KF}.
Arguments kf_vertical {KF}.
Arguments kalman_initialized {KF}.
Arguments gaze_history {KF}.
Arguments _smooth_gaze_with_kalman {KF}.
Arguments smooth_gaze {KF}.

(* ================================================================== *)
(** ** DetectionService: head pose *)
(* ================================================================== *)

(** A 3x3 matrix, read as [rotation_mat[i, j]]. *)
Definition Matrix3 : Type := nat -> nat -> Q.

Definition singular_eps : Q := 1 # 1000000.

Section HeadPose.

(** numpy's [sqrt], [arctan2] and [degrees]: library functions from floats
    to floats. *)
Variable np_sqrt : Q -> Q.
Variable np_arctan2 : Q -> Q -> Q.
Variable np_degrees : Q -> Q.

Record Euler : Type := mkEuler { e_pitch : Q; e_yaw : Q; e_roll : Q }.

(** Lines 260-270 of [detect_head_pose]. *)
Definition euler_angles (rotation_mat : Matrix3) : Euler :=
  let sy := np_sqrt (rotation_mat 0%nat 0%nat ^ 2 + rotation_mat 1%nat 0%nat ^ 2) in
  let singular := Py.ltb sy singular_eps in
  if negb singular then
    mkEuler (np_arctan2 (rotation_mat 2%nat 1%nat) (rotation_mat 2%nat 2%nat))
            (np_arctan2 (- rotation_mat 2%nat 0%nat) sy)
            (np_arctan2 (rotation_mat 1%nat 0%nat) (rotation_mat 0%nat 0%nat))
  else
    mkEuler (np_arctan2 (- rotation_mat 1%nat 2%nat) (rotation_mat 1%nat 1%nat))
            (np_arctan2 (- rotation_mat 2%nat 0%nat) sy)
            0.

(** The value [detect_head_pose] returns for a rotation matrix:
    [(yaw, pitch, roll)] in degrees. *)
Definition head_pose_of_rotation (rotation_mat : Matrix3) : Q * Q * Q :=
  let e := euler_angles rotation_mat in
  (Py.round (np_degrees (e_yaw e)) 2,
   Py.round (np_degrees (e_pitch e)) 2,
   Py.round (np_degrees (e_roll e)) 2).

End HeadPose.

(* ================================================================== *)
(** ** VideoProcessingService: the report *)
(* ================================================================== *)

Open Scope string_scope.

(** [str(n)] for an [int]. *)
Definition str_int (n : Z) : string := NilZero.string_of_int (Z.to_int n).

(** [f"{n:02d}"] *)
Definition fmt_02d (n : Z) : string :=
  let s := str_int n in
  if Nat.ltb (String.length s) 2 then "0" ++ s else s.

(** [str(x)] for a float [x] that holds a whole number, as [round(x, 0)]
    returns: the digits, then [.0] (for the values an intensity takes: not
    negative, below 1e16). *)
Definition str_whole_float (x : Q) : string := str_int (Qfloor x) ++ ".0".

(** [s.replace(old, new)] for a non-empty [old]: [skip] counts the
    characters of a match still to be dropped. *)
Fixpoint replace_from (old new : string) (skip : nat) (s : string) : string :=
  match s with
  | EmptyString => EmptyString
  | String c rest =>
      match skip with
      | S k => replace_from old new k rest
      | O =>
          if String.prefix old s
          then new ++ replace_from old new (String.length old - 1) rest
          else String c (replace_from old new 0 rest)
      end
  end.

Definition replace (s old new : string) : string := replace_from old new 0 s.

(** [type in [...]] *)
Definition str_in (s : string) (l : list string) : bool :=
  existsb (String.eqb s) l.

Definition _format_timestamp (seconds : Q) : string :=
  let minutes := Py.int (Py.floordiv seconds 60) in
  let remaining_seconds := Py.int (Py.fmod seconds 60) in
  str_int minutes ++ ":" ++ fmt_02d remaining_seconds.

(** [list.sort(key=lambda x: x['timestamp'])]: a stable sort.  An event
    is put in front of the first later event that is not smaller. *)
Fixpoint insert_event (e : ViolationEvent) (l : list ViolationEvent)
    : list ViolationEvent :=
  match l with
  | [] => [e]
  | x :: r =>
      if Py.ltb (ev_timestamp x) (ev_timestamp e)
      then x :: insert_event e r
      else e :: x :: r
  end.

Definition sort_by_timestamp (l : list ViolationEvent) : list ViolationEvent :=
  fold_right insert_event [] l.

Record GestureOccurrence : Type := mkOccurrence {
  occ_timestamp : string;
  occ_duration : Q;
  occ_direction : string;
  occ_intensity : string
}.

Record GestureData : Type := mkGesture {
  name : string;
  occurrence : list GestureOccurrence
}.

Definition head_types : list string :=
  ["head_left"; "head_right"; "head_up"; "head_down"].
Definition gaze_types : list string :=
  ["gaze_left"; "gaze_right"; "gaze_up"; "gaze_down"].

(** The four sorted event lists of [_generate_new_format_report]. *)
Definition head_events (violation_events : list ViolationEvent) :=
  sort_by_timestamp
    (filter (fun e => str_in (category_name (ev_type e)) head_types) violation_events).
Definition gaze_events (violation_events : list ViolationEvent) :=
  sort_by_timestamp
    (filter (fun e => str_in (category_name (ev_type e)) gaze_types) violation_events).
Definition face_missing_events (violation_events : list ViolationEvent) :=
  sort_by_timestamp
    (filter (fun e => String.eqb (category_name (ev_type e)) "face_missing")
            violation_events).
Definition multiple_faces_events (violation_events : list ViolationEvent) :=
  sort_by_timestamp
    (filter (fun e => String.eqb (category_name (ev_type e)) "multiple_faces")
            violation_events).

(** The bodies of the four [for event in ...] loops. *)
Definition direction_occurrence (prefix : string) (event : ViolationEvent)
    : GestureOccurrence :=
  mkOccurrence (_format_timestamp (ev_timestamp event))
               (Py.round (ev_duration event) 1)
               (replace (category_name (ev_type event)) prefix "")
               (str_whole_float (Py.round (ev_intensity event) 0) ++ " degrees").

Definition presence_occurrence (event : ViolationEvent) : GestureOccurrence :=
  mkOccurrence (_format_timestamp (ev_timestamp event))
               (Py.round (ev_duration event) 1) "" "".

(** [if occurrences: gestures.append({...})] *)
Definition append_group (gestures : list GestureData) (group_name : string)
    (occurrences : list GestureOccurrence) : list GestureData :=
  match occurrences with
  | [] => gestures
  | _ :: _ => gestures ++ [mkGesture group_name occurrences]
  end.

(** The [gestures] list of [_generate_new_format_report]. *)
Definition report_gestures (violation_events : list ViolationEvent)
    : list GestureData :=
  let gestures := [] in
  let gestures :=
    append_group gestures "head_movement"
      (map (direction_occurrence "head_") (head_events violation_events)) in
  let gestures :=
    append_group gestures "Eye_movement"
      (map (direction_occurrence "gaze_") (gaze_events violation_events)) in
  let gestures :=
    append_group gestures "face_missing"
      (map presence_occurrence (face_missing_events violation_events)) in
  append_group gestures "multiple_faces"
      (map presence_occurrence (multiple_faces_events violation_events)).

Record ProcessingMetadata : Type := mkMetadata {
  processing_time_sec : Z;
  video_duration_sec : Z;
  frames_processed : nat
}.

Record Report : Type := mkReport {
  session_id : string;
  status : string;
  message : string;
  gestures : list GestureData;
  thresholds_used : Thresholds;
  processing_metadata : ProcessingMetadata
}.

Definition _generate_new_format_report (tracker : ViolationTracker)
    (session : string) (thresholds : Thresholds)
    (processing_time video_duration : Q) (frames : nat) : Report :=
  mkReport session "success" "Video processed successfully"
           (report_gestures (violation_events tracker))
           thresholds
           (mkMetadata (Py.round_half_even processing_time)
                       (Py.round_half_even video_duration)
                       frames).

Close Scope string_scope.

(* ================================================================== *)
(** ** Reference definitions for the stated properties *)
(* ================================================================== *)

(** The two presence categories against the eight angle-based ones. *)
Definition is_presence (c : Category) : bool :=
  match c with
  | face_missing | multiple_faces => true
  | _ => false
  end.

(** The measurement an angle-based category looks at. *)
Definition axis_value (c : Category) (f : FrameSignal) : option Q :=
  match c with
  | gaze_left | gaze_right => gaze_h f
  | gaze_up | gaze_down => gaze_v f
  | head_left | head_right => yaw f
  | head_up | head_down => pitch f
  | face_missing | multiple_faces => None
  end.

(** The condition table of the specification, as propositions. *)
Definition condition_holds (c : Category) (th : Thresholds) (f : FrameSignal) : Prop :=
  match c with
  | gaze_left => exists v, gaze_h f = Some v /\ v < - eye_horizontal th
  | gaze_right => exists v, gaze_h f = Some v /\ eye_horizontal th < v
  | gaze_up => exists v, gaze_v f = Some v /\ v < - eye_vertical th
  | gaze_down => exists v, gaze_v f = Some v /\ eye_vertical th < v
  | head_left => exists v, yaw f = Some v /\ v < - yaw_threshold th
  | head_right => exists v, yaw f = Some v /\ yaw_threshold th < v
  | head_up => exists v, pitch f = Some v /\ v < - pitch_threshold th
  | head_down => exists v, pitch f = Some v /\ pitch_threshold th < v
  | face_missing => num_faces f = 0%nat
  | multiple_faces => (1 < num_faces f)%nat
  end.

(** The intensity the specification feeds into start/update: [abs] of the
    axis value for an angle-based category, [0] for a presence category. *)
Definition fed_intensity (c : Category) (f : FrameSignal) (i : Q) : Prop :=
  if is_presence c then i = 0
  else exists v, axis_value c f = Some v /\ i = Qabs v.

(** What the ten calls of [update] pass for one category. *)
Definition category_condition (c : Category) (th : Thresholds) (f : FrameSignal) : bool :=
  match c with
  | gaze_left => below (gaze_h f) (eye_horizontal th)
  | gaze_right => above (gaze_h f) (eye_horizontal th)
  | gaze_up => below (gaze_v f) (eye_vertical th)
  | gaze_down => above (gaze_v f) (eye_vertical th)
  | head_left => below (yaw f) (yaw_threshold th)
  | head_right => above (yaw f) (yaw_threshold th)
  | head_up => below (pitch f) (pitch_threshold th)
  | head_down => above (pitch f) (pitch_threshold th)
  | face_missing => Nat.eqb (num_faces f) 0
  | multiple_faces => Nat.ltb 1 (num_faces f)
  end.

Definition category_intensity (c : Category) (f : FrameSignal) : Q :=
  match c with
  | gaze_left | gaze_right => abs_or_zero (gaze_h f)
  | gaze_up | gaze_down => abs_or_zero (gaze_v f)
  | head_left | head_right => abs_or_zero (yaw f)
  | head_up | head_down => abs_or_zero (pitch f)
  | face_missing | multiple_faces => 0
  end.

(** The two transitions of one category's state machine. *)
Definition on_true (s : ViolationState) (ts i : Q) : ViolationState :=
  if active s
  then mkState true (start_time s) (ts - start_time s) (Py.max (max_intensity s) i)
  else mkState true ts 0 i.

Definition on_false (s : ViolationState) : ViolationState :=
  mkState false (start_time s) (duration s) (max_intensity s).

(** The event an end-transition out of state [s] records, if any. *)
Definition end_events (c : Category) (s : ViolationState) : list ViolationEvent :=
  if active s && Py.geb (duration s) min_duration
  then [mkEvent c (start_time s) (Py.round (duration s) 1) (max_intensity s)]
  else [].

Definition step_state (s : ViolationState) (cond : bool) (ts i : Q) : ViolationState :=
  if cond then on_true s ts i else on_false s.

Definition step_events (c : Category) (s : ViolationState) (cond : bool)
    : list ViolationEvent :=
  if cond then [] else end_events c s.

(** The events of one category, in the order they were recorded. *)
Definition cat_events (c : Category) (evs : list ViolationEvent) : list ViolationEvent :=
  filter (fun e => Category_eqb (ev_type e) c) evs.

(** *** Violation spans

    A sample is what one frame means to one category: whether the
    condition holds, and the frame's timestamp and intensity.  A span is a
    maximal run of consecutive samples whose condition holds. *)
Definition samples (c : Category) (th : Thresholds) (frames : list FrameSignal)
    : list (bool * (Q * Q)) :=
  map (fun f => (category_condition c th f, (timestamp f, category_intensity c f)))
      frames.

(** The maximal runs of consecutive samples whose flag is set, first to
    last, each with the payloads of its samples in order. *)
Fixpoint runs {A : Type} (l : list (bool * A)) : list (list A) :=
  match l with
  | [] => []
  | (false, _) :: l' => runs l'
  | (true, a) :: l' =>
      match l' with
      | (true, _) :: _ =>
          match runs l' with
          | r :: rs => (a :: r) :: rs
          | [] => [[a]]
          end
      | _ => [a] :: runs l'
      end
  end.

(** Whether the last sample's condition holds: the last span is still open. *)
Definition ends_true {A : Type} (l : list (bool * A)) : bool :=
  last (map fst l) false.

(** The spans that have ended: all of them but one still open. *)
Definition closed_runs {A : Type} (l : list (bool * A)) : list (list A) :=
  if ends_true l then removelast (runs l) else runs l.

Definition span_start (r : list (Q * Q)) : Q :=
  match r with
  | [] => 0
  | (t, _) :: _ => t
  end.

(** The accumulated duration: from the first frame of the span to its last
    one; a span of one frame has accumulated nothing. *)
Definition span_duration (r : list (Q * Q)) : Q :=
  match r with
  | [] => 0
  | [_] => 0
  | (t, _) :: _ => fst (last r (0, 0)) - t
  end.

(** The peak intensity over the frames of the span. *)
Definition span_peak (r : list (Q * Q)) : Q :=
  match r with
  | [] => 0
  | (_, i) :: r' => fold_left Py.max (map snd r') i
  end.

Definition reportable (r : list (Q * Q)) : bool :=
  Py.geb (span_duration r) min_duration.

Definition span_event (c : Category) (r : list (Q * Q)) : ViolationEvent :=
  mkEvent c (span_start r) (Py.round (span_duration r) 1) (span_peak r).

Definition events_of_runs (c : Category) (rs : list (list (Q * Q)))
    : list ViolationEvent :=
  map (span_event c) (filter reportable rs).

(** A value rounded to one decimal: ten times it is a whole number, and it
    is within half a tenth of what was rounded. *)
Definition rounded_to_1_decimal (x r : Q) : Prop :=
  (exists n : Z, r * 10 == inject_Z n) /\ Qabs (r - x) <= 1 # 20.

(** The specification's reading of an event's intensity: whole degrees. *)
Definition whole_degrees (x : Q) : Prop := exists n : Z, x == inject_Z n.

(** The group names the specification lists, and the ones the report uses. *)
Definition spec_group_names : list string :=
  ["head_movement"; "eye_movement"; "face_missing"; "multiple_faces"]%string.
Definition report_group_names : list string :=
  ["head_movement"; "Eye_movement"; "face_missing"; "multiple_faces"]%string.

(** Ascending order of start times. *)
Definition by_start_time (a b : ViolationEvent) : Prop :=
  ev_timestamp a <= ev_timestamp b.

(** The five history entries a weighted average combines, oldest first. *)
Definition weighted5 (x1 x2 x3 x4 x5 : Q) : Q :=
  (1 # 10) * x1 + (15 # 100) * x2 + (2 # 10) * x3 + (25 # 100) * x4 + (3 # 10) * x5.

(** One category's state machine run over its samples: the final state and
    the events recorded on the way. *)
Fixpoint machine (c : Category) (l : list (bool * (Q * Q))) (s : ViolationState)
    : ViolationState * list ViolationEvent :=
  match l with
  | [] => (s, [])
  | (b, (ts, i)) :: l' =>
      let (s', out) := machine c l' (step_state s b ts i) in
      (s', step_events c s b ++ out)
  end.

(** The state of a category whose open span is [r]. *)
Definition state_of_run (r : list (Q * Q)) : ViolationState :=
  mkState true (span_start r) (span_duration r) (span_peak r).

(** Whether [l] goes on with a frame whose condition holds. *)
Definition starts_true {A : Type} (l : list (bool * A)) : bool :=
  match l with
  | (true, _) :: _ => true
  | _ => false
  end.

(** The state a machine is left in after the samples [l]. *)
Definition left_in (s : ViolationState) (l : list (bool * (Q * Q))) : Prop :=
  if ends_true l then s = state_of_run (last (runs l) []) else active s = false.

(** [update] and [finalize] as one loop over the categories. *)
Definition check_all (cond : Category -> bool) (ts : Q) (int : Category -> Q)
    (cs : list Category) (tr : ViolationTracker) : ViolationTracker :=
  fold_left (fun tr c => _check_and_update_violation tr c (cond c) ts (int c)) cs tr.

(** *** The report

    The group an event of category [c] is reported in. *)
Definition group_of (c : Category) : string :=
  match c with
  | head_left | head_right | head_up | head_down => "head_movement"
  | gaze_left | gaze_right | gaze_up | gaze_down => "Eye_movement"
  | face_missing => "face_missing"
  | multiple_faces => "multiple_faces"
  end%string.

(** What an occurrence shows of its event: for a presence category two
    empty strings; otherwise the direction that, put after the prefix, spells
    the category, and an intensity that starts with the digits of the
    intensity rounded to a whole number and ends in [" degrees"]. *)
Definition occurrence_shows (e : ViolationEvent) (o : GestureOccurrence) : Prop :=
  occ_timestamp o = _format_timestamp (ev_timestamp e)
  /\ if is_presence (ev_type e)
     then occ_direction o = ""%string /\ occ_intensity o = ""%string
     else (category_name (ev_type e) = ("head_" ++ occ_direction o)%string
           \/ category_name (ev_type e) = ("gaze_" ++ occ_direction o)%string)
          /\ In (occ_direction o) ["left"; "right"; "up"; "down"]%string
          /\ exists numeral,
               occ_intensity o = (numeral ++ " degrees")%string
               /\ String.prefix (str_int (Py.round_half_even (ev_intensity e)))
                                numeral = true.

(** *** Sample data

    [ProctoringConfig.get_default_thresholds], and frames that carry one
    horizontal gaze reading or none. *)
Definition get_default_thresholds : Thresholds := mkThresholds 8 6 30 20.

Definition gaze_frame (t : Q) (g : option Q) (faces : nat) : FrameSignal :=
  mkFrame t g None None None None faces.

(** A gaze to the right at 9.5 degrees, held over frames 0.0s to 0.2s. *)
Definition gaze_right_200ms : list FrameSignal :=
  [gaze_frame 0 (Some (95 # 10)) 1; gaze_frame (1 # 10) (Some 9) 1;
   gaze_frame (2 # 10) (Some 9) 1; gaze_frame (3 # 10) (Some 0) 1].

(** The same gaze held over frames 0.0s to 0.1s only. *)
Definition gaze_right_100ms : list FrameSignal :=
  [gaze_frame 0 (Some (95 # 10)) 1; gaze_frame (5 # 100) (Some 9) 1;
   gaze_frame (1 # 10) (Some 9) 1; gaze_frame (15 # 100) (Some 0) 1].

(** No face from 1.0s to 1.4s. *)
Definition face_missing_400ms : list FrameSignal :=
  [gaze_frame 1 None 0; gaze_frame (12 # 10) None 0; gaze_frame (14 # 10) None 0;
   gaze_frame (16 # 10) (Some 0) 1].

(** A stand-in for the Kalman filter that keeps the last measurement and
    returns it, and a smoother that has seen four samples. *)
Definition last_value_predict (k : Q) : option Q := Some k.
Definition last_value_correct (k z : Q) : option (Q * Q) := Some (z, z).
Definition last_value_seed (k x : Q) : Q := x.

Definition four_samples : GazeSmoother Q :=
  mkSmoother 4 4 true [(1, 1); (2, 2); (3, 3); (4, 4)].

(** *** Accessors of the tracker and of the detection service

    [get_counts], [get_all_events] and [get_all_max_intensities] hand out
    copies; [get_timestamps] reads one key. *)
Definition get_counts (tr : ViolationTracker) : CatMap nat := counts tr.

Definition get_timestamps (tr : ViolationTracker) (violation_type : Category)
    : list Q :=
  timestamps tr violation_type.

Definition get_all_events (tr : ViolationTracker) : list ViolationEvent :=
  violation_events tr.

Definition get_all_max_intensities (tr : ViolationTracker) : CatMap Q :=
  max_intensities tr.

(** The category that watches the other side of the same axis; for the
    presence categories, the other presence category. *)
Definition opposite (c : Category) : Category :=
  match c with
  | gaze_left => gaze_right | gaze_right => gaze_left
  | gaze_up => gaze_down | gaze_down => gaze_up
  | head_left => head_right | head_right => head_left
  | head_up => head_down | head_down => head_up
  | face_missing => multiple_faces | multiple_faces => face_missing
  end.

Definition thresholds_nonneg (th : Thresholds) : Prop :=
  0 <= eye_horizontal th /\ 0 <= eye_vertical th
  /\ 0 <= yaw_threshold th /\ 0 <= pitch_threshold th.

(** Timestamps that never go back. *)
Definition non_decreasing (frames : list FrameSignal) : Prop :=
  StronglySorted Qle (map timestamp frames).

(** What the tracker keeps beside the event list, read off the events. *)
Definition books_agree (tr : ViolationTracker) : Prop :=
  forall c,
    counts tr c = List.length (cat_events c (violation_events tr))
    /\ timestamps tr c
       = map (fun e => Py.round (ev_timestamp e) 2)
             (cat_events c (violation_events tr)).

(** The recorded maximum of a category is above the peak of a state that
    has accumulated a reportable duration, and above every event. *)
Definition maxima_bound (tr : ViolationTracker) : Prop :=
  (forall c, Py.geb (duration (active_violations tr c)) min_duration = true ->
             max_intensity (active_violations tr c) <= max_intensities tr c)
  /\ Forall (fun e => ev_intensity e <= max_intensities tr (ev_type e))
            (violation_events tr).

(** *** Measures of a report *)

(** The number of occurrences of a report, over all its groups. *)
Definition occurrence_count (gestures : list GestureData) : nat :=
  fold_right (fun g n => (List.length (occurrence g) + n)%nat) 0%nat gestures.

(** Whether some event belongs to the group of this name. *)
Definition has_group (evs : list ViolationEvent) (group_name : string) : bool :=
  existsb (fun e => String.eqb (group_of (ev_type e)) group_name) evs.

(** The events that start at [t]. *)
Definition started_at (t : Q) (e : ViolationEvent) : bool :=
  Qeq_bool (ev_timestamp e) t.

(** The events of one group, in the order the tracker recorded them. *)
Definition group_members (group_name : string) (evs : list ViolationEvent)
    : list ViolationEvent :=
  filter (fun e => String.eqb (group_of (ev_type e)) group_name) evs.

(** *** [VideoProcessingService._resize_frame]

    A frame is read by its shape [(h, w)]; [cv2.resize] returns a frame of
    the size it is asked for. *)
Definition MAX_FRAME_DIMENSION : Z := 960.

Definition _resize_frame (shape : Z * Z) : Z * Z :=
  let '(h, w) := shape in
  let max_dim := Z.max h w in
  if (MAX_FRAME_DIMENSION <? max_dim)%Z then
    let scale := inject_Z MAX_FRAME_DIMENSION / inject_Z max_dim in
    let new_w := Py.int (inject_Z w * scale) in
    let new_h := Py.int (inject_Z h * scale) in
    (new_h, new_w)
  else (h, w).

(** *** Successive calls of the gaze smoother

    The smoother as [_setup] leaves it, around two new filters, and the
    calls of [detect_gaze] that reach the smoothing, one after the other. *)
Section GazeStream.

Variable KF : Type.
Variable set_statePre : KF -> Q -> KF.
Variable predict : KF -> option KF.
Variable correct : KF -> Q -> option (KF * Q).

Definition fresh_smoother (kf_h kf_v : KF) : GazeSmoother KF :=
  mkSmoother kf_h kf_v false [].

Fixpoint smooth_stream (s : GazeSmoother KF) (angles : list (Q * Q))
    : GazeSmoother KF * list (Q * Q) :=
  match angles with
  | [] => (s, [])
  | (h, v) :: rest =>
      let (s1, out) := smooth_gaze set_statePre predict correct s h v in
      let (s2, outs) := smooth_stream s1 rest in
      (s2, out :: outs)
  end.

End GazeStream.

Arguments fresh_smoother {KF}.
Arguments smooth_stream {KF}.

(** *** [VideoProcessingService.process_video]

    The two exceptions of [app.core.exceptions] that [process_video] lets
    out, with their codes. *)
Inductive ProcessError : Type :=
  | VideoDownloadError (code : Z)
  | VideoProcessingError (code : Z).

Definition TARGET_FPS : Q := 15.

(** [max(1, int(fps / TARGET_FPS))] *)
Definition frame_skip_of (fps : Q) : Z := Z.max 1 (Py.int (fps / TARGET_FPS)).

(** What [cv2.VideoCapture] gives: whether it opened, the two properties
    read from it, and the frames [read()] returns until it fails. *)
Record Capture (Frame : Type) : Type := mkCapture {
  isOpened : bool;
  CAP_PROP_FPS : Q;
  CAP_PROP_FRAME_COUNT : Q;
  cap_frames : list Frame
}.

Arguments isOpened {Frame}.
Arguments CAP_PROP_FPS {Frame}.
Arguments CAP_PROP_FRAME_COUNT {Frame}.
Arguments cap_frames {Frame}.

(** What the two detectors return for one frame: [(gaze_h, gaze_v,
    num_faces)] and [(yaw, pitch, roll)]. *)
Definition Detection : Type := ((option Q * option Q * nat) * (option Q * option Q * option Q))%type.

Section ProcessVideo.

(** The outer world of [process_video].  [detect] stands for the resize and
    the two detector calls on one frame, with the detector's own state (face
    meshes, Kalman filters, gaze history) threaded through; [None] where one
    of them raises.  [_download_video] is [None] where it raises. *)
Variable Frame : Type.
Variable Detector : Type.
Variable detect : Detector -> Frame -> option (Detector * Detection).
Variable _download_video : string -> option string.
Variable VideoCapture : string -> Capture Frame.

(** The [while True] loop: [None] where an exception leaves it. *)
Fixpoint frame_loop (fps : Q) (frame_skip : Z) (thresholds : Thresholds)
    (frames : list Frame) (frame_idx : Z) (frames_processed : nat)
    (det : Detector) (tr : ViolationTracker) : option (ViolationTracker * nat) :=
  match frames with
  | [] => Some (tr, frames_processed)
  | frame :: rest =>
      if negb (Z.eqb (frame_idx mod frame_skip) 0) then
        frame_loop fps frame_skip thresholds rest (frame_idx + 1) frames_processed det tr
      else if Qeq_bool fps 0 then None
      else
        let current_time := inject_Z frame_idx / fps in
        match detect det frame with
        | None => None
        | Some (det', ((gaze_h, gaze_v, num_faces), (yaw, pitch, roll))) =>
            let tr' :=
              update_violations tr
                (mkFrame current_time gaze_h gaze_v yaw pitch roll num_faces)
                thresholds in
            frame_loop fps frame_skip thresholds rest (frame_idx + 1)
                       (S frames_processed) det' tr'
        end
  end.

Definition process_video (det : Detector) (video_path session : string)
    (processing_time : Q) : Report + ProcessError :=
  let is_url := (String.prefix "http://" video_path
                 || String.prefix "https://" video_path)%bool in
  match (if is_url then _download_video video_path else Some video_path) with
  | None => inr (VideoDownloadError 5010)
  | Some video_path_to_process =>
      let cap := VideoCapture video_path_to_process in
      if negb (isOpened cap) then inr (VideoProcessingError 5011)
      else
        let fps := CAP_PROP_FPS cap in
        let total_frames := Py.int (CAP_PROP_FRAME_COUNT cap) in
        let video_duration :=
          if Py.ltb 0 fps then inject_Z total_frames / fps else 0 in
        let frame_skip := frame_skip_of fps in
        let thresholds := get_default_thresholds in
        match frame_loop fps frame_skip thresholds (cap_frames cap) 0 0 det
                         tracker_init with
        | None => inr (VideoProcessingError 5012)
        | Some (tr, frames_processed) =>
            inl (_generate_new_format_report (finalize tr) session thresholds
                   processing_time video_duration frames_processed)
        end
  end.

End ProcessVideo.

Arguments frame_loop {Frame Detector}.
Arguments process_video {Frame Detector}.

(** The indices of the frames the loop hands to the detectors, out of the
    frames [a, a + 1, ..., a + n - 1]. *)
Definition sampled_indices (frame_skip : Z) (a n : nat) : list Z :=
  filter (fun i => Z.eqb (i mod frame_skip) 0) (map Z.of_nat (seq a n)).

(** A stand-in detector that sees one face looking straight ahead. *)
Definition one_face_detector (det : unit) (frame : unit) : option (unit * Detection) :=
  Some (tt, ((Some 0, Some 0, 1%nat), (Some 0, Some 0, Some 0))).

(* ================================================================== *)
(** ** Dictionaries and the single check *)
(* ================================================================== *)

Lemma Category_eqb_refl (c : Category) : Category_eqb c c = true.
Proof. unfold Category_eqb. destruct (Category_eq_dec c c); congruence. Qed.

Lemma Category_eqb_neq (a b : Category) : a <> b -> Category_eqb a b = false.
Proof. unfold Category_eqb. destruct (Category_eq_dec a b); congruence. Qed.

Lemma Category_eqb_eq (a b : Category) : Category_eqb a b = true <-> a = b.
Proof.
  unfold Category_eqb. destruct (Category_eq_dec a b); split; congruence.
Qed.

Lemma set_item_same {A : Type} (d : CatMap A) k v : set_item d k v k = v.
Proof. unfold set_item. now rewrite Category_eqb_refl. Qed.

Lemma set_item_other {A : Type} (d : CatMap A) k k' v :
  k <> k' -> set_item d k v k' = d k'.
Proof. intro H. unfold set_item. now rewrite Category_eqb_neq. Qed.

Lemma NoDup_all_categories : NoDup all_categories.
Proof.
  unfold all_categories.
  repeat (constructor; [simpl; intuition discriminate|]). constructor.
Qed.

Lemma In_all_categories (c : Category) : In c all_categories.
Proof. destruct c; simpl; tauto. Qed.

Lemma check_state_same tr c b ts i :
  active_violations (_check_and_update_violation tr c b ts i) c
  = step_state (active_violations tr c) b ts i.
Proof.
  unfold _check_and_update_violation, step_state, on_true, on_false.
  destruct b; destruct (active (active_violations tr c)) eqn:Ea; simpl.
  - unfold _update_violation. simpl. rewrite set_item_same, Ea. reflexivity.
  - unfold _start_violation. simpl. now rewrite set_item_same.
  - unfold _end_violation. rewrite Ea.
    destruct (Py.geb _ _); simpl; now rewrite set_item_same.
  - destruct (active_violations tr c); simpl in *; congruence.
Qed.

Lemma check_state_other tr c c' b ts i :
  c' <> c ->
  active_violations (_check_and_update_violation tr c' b ts i) c
  = active_violations tr c.
Proof.
  intro H. unfold _check_and_update_violation.
  destruct b; destruct (active (active_violations tr c')) eqn:Ea; simpl;
    try reflexivity.
  - unfold _update_violation. simpl. now rewrite set_item_other.
  - unfold _start_violation. simpl. now rewrite set_item_other.
  - unfold _end_violation. rewrite Ea.
    destruct (Py.geb _ _); simpl; now rewrite set_item_other.
Qed.

Lemma check_events tr c b ts i :
  violation_events (_check_and_update_violation tr c b ts i)
  = violation_events tr ++ step_events c (active_violations tr c) b.
Proof.
  unfold _check_and_update_violation, step_events, end_events.
  destruct b; destruct (active (active_violations tr c)) eqn:Ea; simpl;
    try (now rewrite app_nil_r).
  unfold _end_violation. rewrite Ea.
  destruct (Py.geb _ _); simpl.
  - reflexivity.
  - now rewrite app_nil_r.
Qed.

Lemma cat_events_app c l1 l2 :
  cat_events c (l1 ++ l2) = cat_events c l1 ++ cat_events c l2.
Proof. apply filter_app. Qed.

Lemma cat_events_step_same c s b : cat_events c (step_events c s b) = step_events c s b.
Proof.
  unfold step_events, end_events.
  destruct b; [reflexivity|].
  destruct (active s && Py.geb (duration s) min_duration); [|reflexivity].
  simpl. now rewrite Category_eqb_refl.
Qed.

Lemma cat_events_step_other c c' s b : c' <> c -> cat_events c (step_events c' s b) = [].
Proof.
  intro H. unfold step_events, end_events.
  destruct b; [reflexivity|].
  destruct (active s && Py.geb (duration s) min_duration); [|reflexivity].
  simpl. now rewrite Category_eqb_neq.
Qed.

(** *** The loop over the categories, seen from one category *)

Lemma check_all_not_in cond ts int cs : forall tr c,
  ~ In c cs ->
  active_violations (check_all cond ts int cs tr) c = active_violations tr c
  /\ cat_events c (violation_events (check_all cond ts int cs tr))
     = cat_events c (violation_events tr).
Proof.
  induction cs as [|c' cs IH]; intros tr c Hn; simpl.
  - split; reflexivity.
  - assert (Hc : c' <> c) by (intro; subst; apply Hn; now left).
    assert (Hn' : ~ In c cs) by (intro; apply Hn; now right).
    destruct (IH (_check_and_update_violation tr c' (cond c') ts (int c')) c Hn')
      as [Hs He].
    unfold check_all in *. simpl. rewrite Hs, He. split.
    + now apply check_state_other.
    + rewrite check_events, cat_events_app, cat_events_step_other by assumption.
      now rewrite app_nil_r.
Qed.

Lemma check_all_in cond ts int cs : forall tr c,
  NoDup cs -> In c cs ->
  active_violations (check_all cond ts int cs tr) c
  = step_state (active_violations tr c) (cond c) ts (int c)
  /\ cat_events c (violation_events (check_all cond ts int cs tr))
     = cat_events c (violation_events tr)
       ++ step_events c (active_violations tr c) (cond c).
Proof.
  induction cs as [|c' cs IH]; intros tr c Hnd Hin; [contradiction|].
  inversion Hnd as [|? ? Hni Hnd']; subst.
  destruct Hin as [-> | Hin].
  - destruct (check_all_not_in cond ts int cs
                (_check_and_update_violation tr c (cond c) ts (int c)) c Hni)
      as [Hs He].
    unfold check_all in *. simpl. rewrite Hs, He. split.
    + apply check_state_same.
    + now rewrite check_events, cat_events_app, cat_events_step_same.
  - assert (Hc : c' <> c) by (intro; subst; contradiction).
    destruct (IH (_check_and_update_violation tr c' (cond c') ts (int c')) c Hnd' Hin)
      as [Hs He].
    unfold check_all in *. simpl. rewrite Hs, He.
    rewrite check_state_other by assumption.
    rewrite check_events, cat_events_app, cat_events_step_other by assumption.
    now rewrite app_nil_r.
Qed.

Lemma update_is_check_all tr f th :
  update_violations tr f th
  = check_all (fun c => category_condition c th f) (timestamp f)
              (fun c => category_intensity c f) all_categories tr.
Proof. reflexivity. Qed.

Lemma finalize_is_check_all tr :
  finalize tr = check_all (fun _ => false) 0 (fun _ => 0) all_categories tr.
Proof. reflexivity. Qed.

(** What one frame does to one category. *)
Lemma update_category tr f th c :
  active_violations (update_violations tr f th) c
  = step_state (active_violations tr c) (category_condition c th f)
               (timestamp f) (category_intensity c f)
  /\ cat_events c (violation_events (update_violations tr f th))
     = cat_events c (violation_events tr)
       ++ step_events c (active_violations tr c) (category_condition c th f).
Proof.
  rewrite update_is_check_all.
  apply (check_all_in (fun c => category_condition c th f) (timestamp f)
                      (fun c => category_intensity c f));
    [apply NoDup_all_categories | apply In_all_categories].
Qed.

(** What [finalize] does to one category. *)
Lemma finalize_category tr c :
  active_violations (finalize tr) c = on_false (active_violations tr c)
  /\ cat_events c (violation_events (finalize tr))
     = cat_events c (violation_events tr) ++ end_events c (active_violations tr c).
Proof.
  rewrite finalize_is_check_all.
  apply (check_all_in (fun _ => false) 0 (fun _ => 0));
    [apply NoDup_all_categories | apply In_all_categories].
Qed.

(* ================================================================== *)
(** ** Spans *)
(* ================================================================== *)

Section Runs.

Context {A : Type}.
Implicit Types (l : list (bool * A)) (cur : list A).

Lemma runs_true_nonempty a l : runs ((true, a) :: l) <> [].
Proof.
  simpl. destruct l as [|[[|] b] l'].
  - discriminate.
  - destruct (runs ((true, b) :: l')); discriminate.
  - discriminate.
Qed.

(** A block of frames whose condition holds, closed by the end of the
    list or by a frame whose condition fails, is one run. *)
Lemma runs_block cur l :
  cur <> [] -> starts_true l = false ->
  runs (map (pair true) cur ++ l) = cur :: runs l.
Proof.
  intros Hne Hl. induction cur as [|a cur IH]; [congruence|].
  destruct cur as [|b cur'].
  - simpl. destruct l as [|[[|] x] l']; simpl in *; congruence.
  - assert (IH' : runs (map (pair true) (b :: cur') ++ l) = (b :: cur') :: runs l)
      by (apply IH; discriminate).
    change (map (pair true) (a :: b :: cur') ++ l)
      with ((true, a) :: (true, b) :: (map (pair true) cur' ++ l)).
    change (map (pair true) (b :: cur') ++ l)
      with ((true, b) :: (map (pair true) cur' ++ l)) in IH'.
    simpl runs at 1. simpl in IH'. rewrite IH'. reflexivity.
Qed.

Lemma ends_true_cons x l : l <> [] -> ends_true (x :: l) = ends_true l.
Proof.
  intro H. unfold ends_true. destruct l as [|y l']; [congruence|]. reflexivity.
Qed.

Lemma ends_true_app l1 l2 : l2 <> [] -> ends_true (l1 ++ l2) = ends_true l2.
Proof.
  intro H. induction l1 as [|x l1 IH]; [reflexivity|].
  simpl. rewrite ends_true_cons; [exact IH|].
  destruct l1; simpl; [assumption | discriminate].
Qed.

Lemma ends_true_false_cons a l : ends_true ((false, a) :: l) = ends_true l.
Proof.
  destruct l as [|y l']; [reflexivity|]. apply ends_true_cons. discriminate.
Qed.

Lemma ends_true_block cur : cur <> [] -> ends_true (map (pair true) cur) = true.
Proof.
  intro H. induction cur as [|a cur IH]; [congruence|].
  destruct cur as [|b cur']; [reflexivity|].
  simpl map. rewrite ends_true_cons by discriminate. apply IH. discriminate.
Qed.

Lemma ends_true_runs l : ends_true l = true -> runs l <> [].
Proof.
  induction l as [|[b a] l IH]; intro H; [discriminate|].
  destruct b; [apply runs_true_nonempty|].
  rewrite ends_true_false_cons in H. simpl. now apply IH.
Qed.

Lemma closed_runs_block cur a l :
  cur <> [] ->
  closed_runs (map (pair true) cur ++ (false, a) :: l) = cur :: closed_runs l.
Proof.
  intro Hne. unfold closed_runs.
  rewrite ends_true_app by discriminate.
  rewrite ends_true_false_cons.
  rewrite runs_block by (assumption || reflexivity).
  simpl runs at 1.
  destruct (ends_true l) eqn:E; [|reflexivity].
  apply ends_true_runs in E. destruct (runs l); [congruence | reflexivity].
Qed.

Lemma closed_runs_false_cons a l : closed_runs ((false, a) :: l) = closed_runs l.
Proof. unfold closed_runs. now rewrite ends_true_false_cons. Qed.

Lemma last_runs_block cur a l (d : list A) :
  cur <> [] -> ends_true l = true ->
  last (runs (map (pair true) cur ++ (false, a) :: l)) d = last (runs l) d.
Proof.
  intros Hne E.
  rewrite runs_block by (assumption || reflexivity).
  simpl runs at 1. apply ends_true_runs in E.
  destruct (runs l); [congruence | reflexivity].
Qed.

(** All runs are the closed ones, then the open one if there is one. *)
Lemma runs_closed_open l :
  runs l = if ends_true l then closed_runs l ++ [last (runs l) []] else closed_runs l.
Proof.
  unfold closed_runs. destruct (ends_true l) eqn:E; [|reflexivity].
  apply app_removelast_last. now apply ends_true_runs.
Qed.

End Runs.

(** *** Span measures under extension by one frame *)

Lemma span_start_snoc r x : r <> [] -> span_start (r ++ [x]) = span_start r.
Proof. destruct r; [congruence | reflexivity]. Qed.

Lemma span_duration_snoc r ts i :
  r <> [] -> span_duration (r ++ [(ts, i)]) = ts - span_start r.
Proof.
  intro H. destruct r as [|[t0 i0] r']; [congruence|].
  unfold span_duration, span_start.
  change (((t0, i0) :: r') ++ [(ts, i)]) with ((t0, i0) :: (r' ++ [(ts, i)])).
  destruct (r' ++ [(ts, i)]) eqn:E.
  - destruct r'; discriminate.
  - rewrite <- E.
    change ((t0, i0) :: r' ++ [(ts, i)]) with (((t0, i0) :: r') ++ [(ts, i)]).
    now rewrite last_last.
Qed.

Lemma span_peak_snoc r ts i :
  r <> [] -> span_peak (r ++ [(ts, i)]) = Py.max (span_peak r) i.
Proof.
  intro H. destruct r as [|[t0 i0] r']; [congruence|].
  change (((t0, i0) :: r') ++ [(ts, i)]) with ((t0, i0) :: (r' ++ [(ts, i)])).
  unfold span_peak. now rewrite map_app, fold_left_app.
Qed.

Lemma state_of_run_snoc r ts i :
  r <> [] -> on_true (state_of_run r) ts i = state_of_run (r ++ [(ts, i)]).
Proof.
  intro H. unfold on_true, state_of_run. simpl.
  now rewrite span_start_snoc, span_duration_snoc, span_peak_snoc.
Qed.

Lemma end_events_state_of_run c r :
  end_events c (state_of_run r) = events_of_runs c [r].
Proof.
  unfold end_events, events_of_runs, reportable, state_of_run, span_event. simpl.
  destruct (Py.geb (span_duration r) min_duration); reflexivity.
Qed.

Lemma end_events_inactive c s : active s = false -> end_events c s = [].
Proof. intro H. unfold end_events. now rewrite H. Qed.

Lemma events_of_runs_app c rs1 rs2 :
  events_of_runs c (rs1 ++ rs2) = events_of_runs c rs1 ++ events_of_runs c rs2.
Proof. unfold events_of_runs. now rewrite filter_app, map_app. Qed.

(* ================================================================== *)
(** ** One category's machine records the events of its spans *)
(* ================================================================== *)

Lemma machine_cons c b ts i l s :
  machine c ((b, (ts, i)) :: l) s
  = (fst (machine c l (step_state s b ts i)),
     step_events c s b ++ snd (machine c l (step_state s b ts i))).
Proof.
  simpl. now destruct (machine c l (step_state s b ts i)).
Qed.

Lemma machine_spans c : forall l,
  (forall s, active s = false ->
     snd (machine c l s) = events_of_runs c (closed_runs l)
     /\ left_in (fst (machine c l s)) l)
  /\ (forall cur, cur <> [] ->
     snd (machine c l (state_of_run cur))
     = events_of_runs c (closed_runs (map (pair true) cur ++ l))
     /\ left_in (fst (machine c l (state_of_run cur))) (map (pair true) cur ++ l)).
Proof.
  induction l as [|[b [ts i]] l [IHc IHo]]; split.
  - intros s Hs. simpl. split; [reflexivity | exact Hs].
  - intros cur Hne. rewrite app_nil_r. simpl machine. unfold left_in, closed_runs.
    rewrite ends_true_block by assumption.
    pose proof (runs_block cur [] Hne eq_refl) as R. rewrite app_nil_r in R.
    rewrite R. simpl. split; reflexivity.
  - intros s Hs. rewrite machine_cons. cbn [fst snd]. destruct b.
    + (* a span opens *)
      assert (E : step_state s true ts i = state_of_run [(ts, i)])
        by (unfold step_state, on_true; now rewrite Hs).
      rewrite E.
      destruct (IHo [(ts, i)]) as [He Hl]; [discriminate|].
      split; assumption.
    + assert (Ha : active (step_state s false ts i) = false) by reflexivity.
      destruct (IHc _ Ha) as [He Hl].
      unfold step_events. rewrite end_events_inactive by assumption.
      rewrite closed_runs_false_cons. split; [assumption|].
      unfold left_in in *. rewrite ends_true_false_cons. exact Hl.
  - intros cur Hne. rewrite machine_cons. cbn [fst snd]. destruct b.
    + (* the open span goes on *)
      assert (E : step_state (state_of_run cur) true ts i
                  = state_of_run (cur ++ [(ts, i)]))
        by (unfold step_state; now apply state_of_run_snoc).
      rewrite E.
      destruct (IHo (cur ++ [(ts, i)])) as [He Hl];
        [destruct cur; discriminate|].
      rewrite map_app, <- app_assoc in He, Hl.
      split; assumption.
    + (* the open span ends *)
      assert (Ha : active (step_state (state_of_run cur) false ts i) = false)
        by reflexivity.
      destruct (IHc _ Ha) as [He Hl].
      unfold step_events. rewrite end_events_state_of_run, He.
      rewrite closed_runs_block by assumption.
      change (cur :: closed_runs l) with ([cur] ++ closed_runs l).
      rewrite events_of_runs_app. split; [reflexivity|].
      unfold left_in in *.
      rewrite ends_true_app by discriminate. rewrite ends_true_false_cons.
      destruct (ends_true l) eqn:El; [|exact Hl].
      now rewrite last_runs_block.
Qed.

(** The frame loop, seen from one category, is that category's machine. *)
Lemma feed_machine th c : forall frames tr,
  active_violations (feed th frames tr) c
  = fst (machine c (samples c th frames) (active_violations tr c))
  /\ cat_events c (violation_events (feed th frames tr))
     = cat_events c (violation_events tr)
       ++ snd (machine c (samples c th frames) (active_violations tr c)).
Proof.
  induction frames as [|f frames IH]; intro tr.
  - simpl. now rewrite app_nil_r.
  - destruct (update_category tr f th c) as [Hs He].
    destruct (IH (update_violations tr f th)) as [IHs IHe].
    change (feed th (f :: frames) tr) with (feed th frames (update_violations tr f th)).
    change (samples c th (f :: frames))
      with ((category_condition c th f, (timestamp f, category_intensity c f))
              :: samples c th frames).
    rewrite machine_cons. cbn [fst snd].
    rewrite IHs, IHe, Hs, He. now rewrite app_assoc.
Qed.

(** The events a tracker holds for one category are the events of the
    category's closed spans while frames are fed, and of all its spans once
    [finalize] has run. *)
Lemma events_refine th frames c :
  cat_events c (violation_events (feed th frames tracker_init))
  = events_of_runs c (closed_runs (samples c th frames))
  /\ cat_events c (violation_events (run th frames))
     = events_of_runs c (runs (samples c th frames)).
Proof.
  destruct (feed_machine th c frames tracker_init) as [Hs He].
  destruct (machine_spans c (samples c th frames)) as [Hc _].
  destruct (Hc (active_violations tracker_init c) eq_refl) as [Hout Hleft].
  rewrite Hout in He. change (violation_events tracker_init) with (@nil ViolationEvent) in He.
  cbn [cat_events filter app] in He. split; [exact He|].
  unfold run. destruct (finalize_category (feed th frames tracker_init) c) as [_ Hf].
  rewrite Hf, He, Hs.
  rewrite (runs_closed_open (samples c th frames)).
  unfold left_in in Hleft.
  destruct (ends_true (samples c th frames)).
  - rewrite Hleft, end_events_state_of_run, events_of_runs_app. reflexivity.
  - rewrite end_events_inactive by assumption. now rewrite app_nil_r.
Qed.

(* ================================================================== *)
(** ** Facts about the numeric primitives *)
(* ================================================================== *)

Lemma ltb_lt a b : Py.ltb a b = true <-> a < b.
Proof.
  unfold Py.ltb. rewrite negb_true_iff. split; intro H.
  - apply Qnot_le_lt. intro Hle. apply Qle_bool_iff in Hle. congruence.
  - destruct (Qle_bool b a) eqn:E; [|reflexivity].
    apply Qle_bool_iff in E. exfalso. now apply (Qlt_not_le a b).
Qed.

Lemma ltb_ge a b : Py.ltb a b = false <-> b <= a.
Proof.
  unfold Py.ltb. rewrite negb_false_iff. apply Qle_bool_iff.
Qed.

Lemma geb_le a b : Py.geb a b = true <-> b <= a.
Proof. unfold Py.geb. apply Qle_bool_iff. Qed.

Lemma geb_lt a b : a < b -> Py.geb a b = false.
Proof.
  intro H. unfold Py.geb. destruct (Qle_bool b a) eqn:E; [|reflexivity].
  apply Qle_bool_iff in E. exfalso. now apply (Qlt_not_le a b).
Qed.

Lemma max_ub a b : a <= Py.max a b /\ b <= Py.max a b.
Proof.
  unfold Py.max. destruct (Py.ltb a b) eqn:E.
  - apply ltb_lt in E. split; [now apply Qlt_le_weak | apply Qle_refl].
  - apply ltb_ge in E. split; [apply Qle_refl | assumption].
Qed.

Lemma max_cases a b : Py.max a b = a \/ Py.max a b = b.
Proof. unfold Py.max. destruct (Py.ltb a b); auto. Qed.

(** The running maximum is a peak: one of the values, and above them all. *)
Lemma fold_max_peak l : forall i0,
  In (fold_left Py.max l i0) (i0 :: l)
  /\ Forall (fun x => x <= fold_left Py.max l i0) (i0 :: l).
Proof.
  induction l as [|x l IH]; intro i0; simpl.
  - split; [now left | constructor; [apply Qle_refl | constructor]].
  - destruct (IH (Py.max i0 x)) as [Hin Hall]. split.
    + destruct Hin as [Hin | Hin]; [|now right; right].
      rewrite <- Hin.
      destruct (max_cases i0 x) as [E | E]; rewrite E; simpl; auto.
    + inversion Hall as [|? ? Hm Hrest]; subst.
      destruct (max_ub i0 x) as [H1 H2].
      constructor; [now apply Qle_trans with (Py.max i0 x)|].
      constructor; [now apply Qle_trans with (Py.max i0 x) | assumption].
Qed.

Lemma fold_max_zero l : Forall (fun x => x = 0) l -> fold_left Py.max l 0 = 0.
Proof.
  induction 1 as [|x l Hx _ IH]; [reflexivity|]. subst. simpl. exact IH.
Qed.

Lemma round_half_even_close q :
  Qabs (inject_Z (Py.round_half_even q) - q) <= 1 # 2.
Proof.
  pose proof (Qfloor_le q) as Hlo. pose proof (Qlt_floor q) as Hhi.
  rewrite inject_Z_plus in Hhi.
  apply Qabs_Qle_condition. unfold Py.round_half_even.
  destruct (Py.ltb (q - inject_Z (Qfloor q)) (1 # 2)) eqn:E1.
  - apply ltb_lt in E1. split; lra.
  - apply ltb_ge in E1.
    destruct (Py.ltb (1 # 2) (q - inject_Z (Qfloor q))) eqn:E2.
    + rewrite inject_Z_plus. change (inject_Z 1) with 1 in *. split; lra.
    + apply ltb_ge in E2. destruct (Z.even (Qfloor q)).
      * split; lra.
      * rewrite inject_Z_plus. change (inject_Z 1) with 1 in *. split; lra.
Qed.

Lemma round_1_decimal x : rounded_to_1_decimal x (Py.round x 1).
Proof.
  unfold rounded_to_1_decimal, Py.round.
  change (Pos.pow 10 (Pos.of_nat 1)) with 10%positive.
  set (n := Py.round_half_even (x * inject_Z 10)).
  assert (E : n # 10 == inject_Z n / 10)
    by (rewrite Qmake_Qdiv; reflexivity).
  split.
  - exists n. rewrite E. field.
  - pose proof (round_half_even_close (x * inject_Z 10)) as H. fold n in H.
    apply Qabs_Qle_condition in H. apply Qabs_Qle_condition.
    change (inject_Z 10) with 10 in H.
    assert (E' : n # 10 == inject_Z n * (1 # 10)) by (rewrite E; field).
    rewrite E'. split; lra.
Qed.

(* ================================================================== *)
(** ** The condition table *)
(* ================================================================== *)

Lemma below_spec x t : below x t = true <-> exists v, x = Some v /\ v < - t.
Proof.
  unfold below. destruct x as [v|]; split.
  - intro H. exists v. split; [reflexivity | now apply ltb_lt].
  - intros [w [E H]]. injection E as ->. now apply ltb_lt.
  - discriminate.
  - intros [w [E _]]. discriminate.
Qed.

Lemma above_spec x t : above x t = true <-> exists v, x = Some v /\ t < v.
Proof.
  unfold above. destruct x as [v|]; split.
  - intro H. exists v. split; [reflexivity | now apply ltb_lt].
  - intros [w [E H]]. injection E as ->. now apply ltb_lt.
  - discriminate.
  - intros [w [E _]]. discriminate.
Qed.

(** The booleans [update] passes are the conditions of the table. *)
Lemma category_condition_holds c th f :
  category_condition c th f = true <-> condition_holds c th f.
Proof.
  destruct c; simpl;
    try apply below_spec; try apply above_spec.
  - apply Nat.eqb_eq.
  - apply Nat.ltb_lt.
Qed.

Lemma category_condition_fails c th f :
  category_condition c th f = false <-> ~ condition_holds c th f.
Proof.
  rewrite <- category_condition_holds.
  destruct (category_condition c th f); split; congruence.
Qed.

(** The intensities [update] passes are the ones of the specification. *)
Lemma category_intensity_fed c th f :
  condition_holds c th f -> fed_intensity c f (category_intensity c f).
Proof.
  unfold fed_intensity.
  destruct c; simpl; try reflexivity;
    intros [v [E _]]; exists v; rewrite E; split; reflexivity.
Qed.

Lemma presence_intensity_zero c f :
  is_presence c = true -> category_intensity c f = 0.
Proof. destruct c; try discriminate; reflexivity. Qed.

Lemma absent_axis_condition c th f :
  is_presence c = false -> axis_value c f = None ->
  category_condition c th f = false.
Proof.
  destruct c; simpl; try discriminate; intros _ ->; reflexivity.
Qed.

(** An end-transition of an active category is what a check with a false
    condition does. *)
Lemma end_is_check tr c ts i :
  active (active_violations tr c) = true ->
  _check_and_update_violation tr c false ts i = _end_violation tr c.
Proof. intro H. unfold _check_and_update_violation. now rewrite H. Qed.

(* ================================================================== *)
(** ** Spans and frames *)
(* ================================================================== *)

Lemma runs_true_true {A : Type} (a b : A) l :
  runs ((true, a) :: (true, b) :: l)
  = match runs ((true, b) :: l) with
    | r :: rs => (a :: r) :: rs
    | [] => [[a]]
    end.
Proof. reflexivity. Qed.

(** A run is not empty, and its samples are samples whose condition holds. *)
Lemma runs_In {A : Type} : forall (l : list (bool * A)) r,
  In r (runs l) -> r <> [] /\ forall a, In a r -> In (true, a) l.
Proof.
  induction l as [|[b a] l IH]; intros r Hr; [contradiction|].
  destruct b.
  - destruct l as [|[[|] b'] l'].
    + simpl in Hr. destruct Hr as [<- | []].
      split; [discriminate|]. intros x [<- | []]. now left.
    + rewrite runs_true_true in Hr.
      destruct (runs ((true, b') :: l')) as [|r0 rs] eqn:E.
      * destruct Hr as [<- | []].
        split; [discriminate|]. intros x [<- | []]. now left.
      * destruct Hr as [<- | Hr].
        -- split; [discriminate|].
           intros x [<- | Hx]; [now left|]. right.
           apply (IH r0); [now left | assumption].
        -- destruct (IH r (or_intror Hr)) as [Hne Hall].
           split; [assumption|]. intros x Hx. right. now apply Hall.
    + change (runs ((true, a) :: (false, b') :: l'))
        with ([a] :: runs ((false, b') :: l')) in Hr.
      destruct Hr as [<- | Hr].
      * split; [discriminate|]. intros x [<- | []]. now left.
      * destruct (IH r Hr) as [Hne Hall].
        split; [assumption|]. intros x Hx. right. now apply Hall.
  - change (runs ((false, a) :: l)) with (runs l) in Hr.
    destruct (IH r Hr) as [Hne Hall].
    split; [assumption|]. intros x Hx. right. now apply Hall.
Qed.

(** Every sample of a span of category [c] is a frame of the sequence at
    which the condition of [c] holds. *)
Lemma span_samples_are_frames c th frames r p :
  In r (runs (samples c th frames)) -> In p r ->
  exists f, In f frames /\ condition_holds c th f
            /\ fst p = timestamp f /\ snd p = category_intensity c f.
Proof.
  intros Hr Hp. destruct (runs_In _ _ Hr) as [_ Hall].
  specialize (Hall p Hp). unfold samples in Hall.
  apply in_map_iff in Hall. destruct Hall as [f [E Hf]].
  exists f. injection E as Ec Ep. subst p.
  split; [assumption|]. split; [now apply category_condition_holds|].
  split; reflexivity.
Qed.

Lemma span_peak_is_peak r :
  r <> [] ->
  In (span_peak r) (map snd r) /\ Forall (fun x => x <= span_peak r) (map snd r).
Proof.
  destruct r as [|[t0 i0] r']; [congruence|]. intros _.
  unfold span_peak. simpl map. apply fold_max_peak.
Qed.

Lemma span_peak_zero r : Forall (fun p => snd p = 0) r -> span_peak r = 0.
Proof.
  destruct r as [|[t0 i0] r']; [reflexivity|].
  intro H. inversion H as [|? ? H0 Hr]; subst. simpl in H0. subst.
  unfold span_peak. apply fold_max_zero.
  apply Forall_map. exact Hr.
Qed.

(** An event of the tracker is the event of a reportable span of its
    category. *)
Lemma event_has_span th frames e :
  In e (violation_events (run th frames)) ->
  exists r, In r (runs (samples (ev_type e) th frames))
            /\ reportable r = true /\ e = span_event (ev_type e) r.
Proof.
  intro He.
  assert (Hc : In e (cat_events (ev_type e) (violation_events (run th frames)))).
  { unfold cat_events. apply filter_In. split; [assumption|].
    apply Category_eqb_refl. }
  destruct (events_refine th frames (ev_type e)) as [_ Hrun].
  rewrite Hrun in Hc. unfold events_of_runs in Hc.
  apply in_map_iff in Hc. destruct Hc as [r [E Hr]].
  apply filter_In in Hr. destruct Hr as [Hr Hrep].
  exists r. split; [exact Hr|]. split; [exact Hrep|]. symmetry. exact E.
Qed.

(* ================================================================== *)
(** ** ViolationTracker: the stated properties *)
(* ================================================================== *)


(** A gaze held for 0.20s is one event; held for 0.10s it is none. *)
Example gaze_right_200ms_one_event :
  violation_events (run get_default_thresholds gaze_right_200ms)
  = [mkEvent gaze_right 0 (2 # 10) (95 # 10)].
Proof. reflexivity. Qed.

Example gaze_right_100ms_no_event :
  violation_events (run get_default_thresholds gaze_right_100ms) = [].
Proof. reflexivity. Qed.

(** C2.  On every call of [update], each of the ten categories takes the
    transition of its own condition from its own state: where the condition
    of the table holds, the category is started or updated with the
    intensity [abs(axis value)] (angle-based) or [0] (presence); where it
    does not hold, the category is left inactive. *)
Theorem update_evaluates_each_category (tr : ViolationTracker) (f : FrameSignal)
    (th : Thresholds) (c : Category) :
  let s := active_violations tr c in
  let s' := active_violations (update_violations tr f th) c in
  (condition_holds c th f
   /\ exists i, fed_intensity c f i /\ s' = on_true s (timestamp f) i)
  \/ (~ condition_holds c th f /\ s' = on_false s).
Proof.
  intros s s'. subst s s'.
  rewrite (proj1 (update_category tr f th c)).
  destruct (category_condition c th f) eqn:E.
  - left. apply category_condition_holds in E. split; [assumption|].
    exists (category_intensity c f). split; [|reflexivity].
    now apply category_intensity_fed with th.
  - right. apply category_condition_fails in E. split; [assumption | reflexivity].
Qed.

(** C3.  For every frame and every angle-based category, an absent
    measurement makes the condition false: after the frame the category is
    inactive with its start time, duration and peak untouched (nothing is
    started, nothing is extended), and if it was active the frame does to
    it what [_end_violation] does. *)
Theorem absent_measurement_ends_violation (tr : ViolationTracker)
    (f : FrameSignal) (th : Thresholds) (c : Category) :
  is_presence c = false ->
  axis_value c f = None ->
  ~ condition_holds c th f
  /\ active_violations (update_violations tr f th) c
     = on_false (active_violations tr c)
  /\ (active (active_violations tr c) = false ->
      cat_events c (violation_events (update_violations tr f th))
      = cat_events c (violation_events tr))
  /\ (active (active_violations tr c) = true ->
      active_violations (update_violations tr f th) c
      = active_violations (_end_violation tr c) c
      /\ cat_events c (violation_events (update_violations tr f th))
         = cat_events c (violation_events (_end_violation tr c))).
Proof.
  intros Hang Hnone.
  pose proof (absent_axis_condition c th f Hang Hnone) as Hc.
  destruct (update_category tr f th c) as [Hs He].
  rewrite Hc in Hs, He. simpl in Hs, He.
  split; [now apply category_condition_fails|].
  split; [exact Hs|]. split.
  - intro Ha. rewrite He, end_events_inactive by assumption. apply app_nil_r.
  - intro Ha.
    rewrite <- (end_is_check tr c (timestamp f) 0 Ha).
    rewrite check_state_same, check_events, cat_events_app, cat_events_step_same.
    split; [exact Hs | exact He].
Qed.

(** A tracker whose [gaze_left] span is open, and a frame without a gaze
    reading. *)
Lemma absent_measurement_ends_violation_witness :
  is_presence gaze_left = false
  /\ axis_value gaze_left (gaze_frame (3 # 10) None 1) = None
  /\ active_violations
       (update_violations
          (feed get_default_thresholds
                [gaze_frame 0 (Some (- (9))) 1; gaze_frame (2 # 10) (Some (- (9))) 1]
                tracker_init)
          (gaze_frame (3 # 10) None 1) get_default_thresholds)
       gaze_left
     = mkState false 0 (2 # 10) 9.
Proof.
  split; [reflexivity|]. split; [reflexivity|].
  destruct (absent_measurement_ends_violation
              (feed get_default_thresholds
                    [gaze_frame 0 (Some (- (9))) 1; gaze_frame (2 # 10) (Some (- (9))) 1]
                    tracker_init)
              (gaze_frame (3 # 10) None 1) get_default_thresholds gaze_left
              eq_refl eq_refl) as [_ [H _]].
  exact H.
Defined.

(** C10.  A violation whose condition holds at exactly one [update] call
    never produces an event, whatever the timestamps: the start leaves the
    duration at 0, and neither a following frame with a false condition nor
    [finalize] records anything for the category. *)
Theorem single_frame_violation_never_reported (th : Thresholds) (c : Category)
    (tr : ViolationTracker) (f1 : FrameSignal) :
  active (active_violations tr c) = false ->
  condition_holds c th f1 ->
  duration (active_violations (feed th [f1] tr) c) = 0
  /\ (forall f2, ~ condition_holds c th f2 ->
      cat_events c (violation_events (feed th [f1; f2] tr))
      = cat_events c (violation_events tr)
      /\ active (active_violations (feed th [f1; f2] tr) c) = false)
  /\ cat_events c (violation_events (finalize (feed th [f1] tr)))
     = cat_events c (violation_events tr).
Proof.
  intros Hin Hc1. apply category_condition_holds in Hc1.
  change (feed th [f1] tr) with (update_violations tr f1 th).
  destruct (update_category tr f1 th c) as [Hs1 He1].
  rewrite Hc1 in Hs1, He1. unfold step_state, on_true in Hs1.
  rewrite Hin in Hs1. simpl in He1. rewrite app_nil_r in He1.
  split; [now rewrite Hs1|]. split.
  - intros f2 Hc2. apply category_condition_fails in Hc2.
    change (feed th [f1; f2] tr)
      with (update_violations (update_violations tr f1 th) f2 th).
    destruct (update_category (update_violations tr f1 th) f2 th c) as [Hs2 He2].
    rewrite Hc2, Hs1 in Hs2, He2. rewrite He1 in He2.
    split; [|now rewrite Hs2].
    rewrite He2. simpl. apply app_nil_r.
  - destruct (finalize_category (update_violations tr f1 th) c) as [_ Hf].
    rewrite Hf, He1, Hs1. apply app_nil_r.
Qed.

(** A face missing on the last frame of a stream, two seconds after the
    frame before it. *)
Lemma single_frame_violation_never_reported_witness :
  active (active_violations tracker_init face_missing) = false
  /\ condition_holds face_missing get_default_thresholds (gaze_frame 2 None 0)
  /\ cat_events face_missing
       (violation_events
          (finalize (feed get_default_thresholds [gaze_frame 2 None 0] tracker_init)))
     = cat_events face_missing (violation_events tracker_init).
Proof.
  split; [reflexivity|]. split; [reflexivity|].
  destruct (single_frame_violation_never_reported
              get_default_thresholds face_missing tracker_init
              (gaze_frame 2 None 0) eq_refl eq_refl) as [_ [_ H]].
  exact H.
Defined.




(* ================================================================== *)
(** ** Gaze smoothing: the stated properties *)
(* ================================================================== *)

Lemma round_half_even_comp q q' : q == q' -> Py.round_half_even q = Py.round_half_even q'.
Proof.
  intro H. unfold Py.round_half_even, Py.ltb.
  rewrite (Qfloor_comp q q' H).
  assert (E : q - inject_Z (Qfloor q') == q' - inject_Z (Qfloor q'))
    by (now rewrite H).
  now rewrite (Qleb_comp _ _ (Qeq_refl (1 # 2)) _ _ E),
              (Qleb_comp _ _ E _ _ (Qeq_refl (1 # 2))).
Qed.

(** Rounding does not see how a rational is written. *)
Lemma round_comp q q' n : q == q' -> Py.round q n = Py.round q' n.
Proof.
  intro H. unfold Py.round. destruct n; cbv zeta.
  - f_equal. now apply round_half_even_comp.
  - f_equal. apply round_half_even_comp. now rewrite H.
Qed.

Lemma lastn_all {A : Type} n (l : list A) : (List.length l <= n)%nat -> lastn n l = l.
Proof.
  intro H. unfold lastn. replace (List.length l - n)%nat with 0%nat by lia. reflexivity.
Qed.

Lemma lastn_length {A : Type} n (l : list A) : (List.length (lastn n l) <= n)%nat.
Proof. unfold lastn. rewrite length_skipn. lia. Qed.

(** The history keeps the newest seven samples. *)
Lemma push_history_lastn history sample :
  (List.length history <= max_history_size)%nat ->
  push_history history sample = lastn max_history_size (history ++ [sample]).
Proof.
  intro H. unfold push_history, max_history_size in *.
  destruct (Nat.ltb 7 (List.length (history ++ [sample]))) eqn:E.
  - apply Nat.ltb_lt in E. rewrite length_app in E. simpl in E.
    unfold lastn. rewrite length_app. simpl.
    replace (List.length history + 1 - 7)%nat with 1%nat by lia.
    reflexivity.
  - apply Nat.ltb_ge in E. symmetry. now apply lastn_all.
Qed.

(** The weighted average of five values is their sum under the weights:
    the weights add up to one. *)
Lemma np_average_weights x1 x2 x3 x4 x5 :
  np_average [x1; x2; x3; x4; x5] weights == weighted5 x1 x2 x3 x4 x5.
Proof.
  unfold np_average, np_sum, weights, weighted5. simpl. field.
Qed.

Lemma lastn_5_cases {A : Type} (l : list A) :
  (5 <= List.length l)%nat ->
  exists x1 x2 x3 x4 x5, lastn 5 l = [x1; x2; x3; x4; x5].
Proof.
  intro H. pose proof (length_skipn (List.length l - 5) l) as E.
  unfold lastn.
  destruct (skipn (List.length l - 5) l) as [|x1 [|x2 [|x3 [|x4 [|x5 [|x6 r]]]]]];
    simpl in E; try lia.
  now exists x1, x2, x3, x4, x5.
Qed.

Section GazeSmoothingFacts.

Variable KF : Type.
Variable set_statePre : KF -> Q -> KF.
Variable predict : KF -> option KF.
Variable correct : KF -> Q -> option (KF * Q).

(** The Kalman step leaves the rolling history alone. *)
Lemma kalman_keeps_history (s : GazeSmoother KF) h v :
  gaze_history (fst (_smooth_gaze_with_kalman set_statePre predict correct s h v))
  = gaze_history s.
Proof.
  unfold _smooth_gaze_with_kalman.
  destruct (kalman_initialized s); simpl; [|reflexivity].
  destruct (predict (kf_horizontal s)) as [kh1|]; [|reflexivity].
  destruct (predict (kf_vertical s)) as [kv1|]; [|reflexivity].
  destruct (correct kh1 h) as [[kh2 hc]|]; [|reflexivity].
  destruct (correct kv1 v) as [[kv2 vc]|]; reflexivity.
Qed.

Lemma smooth_gaze_unfold (s : GazeSmoother KF) h v :
  let k := snd (_smooth_gaze_with_kalman set_statePre predict correct s h v) in
  let history := push_history (gaze_history s) k in
  gaze_history (fst (smooth_gaze set_statePre predict correct s h v)) = history
  /\ snd (smooth_gaze set_statePre predict correct s h v)
     = if Nat.leb 5 (List.length history)
       then (Py.round (np_average (map fst (lastn 5 history)) weights) 2,
             Py.round (np_average (map snd (lastn 5 history)) weights) 2)
       else (Py.round (fst k) 2, Py.round (snd k) 2).
Proof.
  intros k history. subst history k.
  pose proof (kalman_keeps_history s h v) as Hh.
  unfold smooth_gaze.
  destruct (_smooth_gaze_with_kalman set_statePre predict correct s h v)
    as [s1 [kh kv]].
  cbn [fst snd] in Hh |- *. rewrite Hh.
  destruct (Nat.leb 5 (List.length (push_history (gaze_history s) (kh, kv))));
    split; reflexivity.
Qed.

(** C4.  For every call of the gaze smoother: the result of the Kalman
    step is appended to the rolling history, which keeps the newest 7
    entries; if the history then holds at least 5 samples, the returned
    angle of each axis is the average of the last 5 entries under the
    weights 0.10, 0.15, 0.20, 0.25, 0.30, oldest to newest, otherwise it is
    the Kalman output; either way rounded to 2 decimals. *)
Theorem smooth_gaze_history_and_average (s : GazeSmoother KF) (h v : Q) :
  (List.length (gaze_history s) <= 7)%nat ->
  let k := snd (_smooth_gaze_with_kalman set_statePre predict correct s h v) in
  let res := smooth_gaze set_statePre predict correct s h v in
  let history := gaze_history (fst res) in
  history = lastn 7 (gaze_history s ++ [k])
  /\ (List.length history <= 7)%nat
  /\ ((List.length history < 5)%nat ->
      snd res = (Py.round (fst k) 2, Py.round (snd k) 2))
  /\ ((5 <= List.length history)%nat ->
      exists x1 x2 x3 x4 x5,
        lastn 5 history = [x1; x2; x3; x4; x5]
        /\ snd res
           = (Py.round (weighted5 (fst x1) (fst x2) (fst x3) (fst x4) (fst x5)) 2,
              Py.round (weighted5 (snd x1) (snd x2) (snd x3) (snd x4) (snd x5)) 2)).
Proof.
  intros Hlen k res history.
  destruct (smooth_gaze_unfold s h v) as [Hh Hr].
  fold k in Hh, Hr. fold res in Hh, Hr. fold history in Hh.
  rewrite <- Hh in Hr.
  assert (E : history = lastn 7 (gaze_history s ++ [k]))
    by (rewrite Hh; now apply push_history_lastn).
  split; [exact E|]. split; [rewrite E; apply lastn_length|]. split.
  - intro Hlt. rewrite Hr.
    destruct (Nat.leb 5 (List.length history)) eqn:E5; [|reflexivity].
    apply Nat.leb_le in E5. lia.
  - intro Hge. rewrite Hr.
    destruct (lastn_5_cases history Hge) as [x1 [x2 [x3 [x4 [x5 E5]]]]].
    exists x1, x2, x3, x4, x5. split; [exact E5|].
    apply Nat.leb_le in Hge. rewrite Hge, E5. simpl map.
    f_equal; apply round_comp, np_average_weights.
Qed.

(** In exact arithmetic the average passes a constant on: when the last
    four history entries and the Kalman output are one and the same sample,
    the call returns that sample, rounded. *)
Lemma smooth_gaze_constant_history (s : GazeSmoother KF) (h v : Q) (k : Q * Q)
    (older : list (Q * Q)) :
  gaze_history s = older ++ [k; k; k; k] ->
  (List.length older <= 3)%nat ->
  snd (_smooth_gaze_with_kalman set_statePre predict correct s h v) = k ->
  snd (smooth_gaze set_statePre predict correct s h v)
  = (Py.round (fst k) 2, Py.round (snd k) 2).
Proof.
  intros Hh Ho Hk.
  destruct (smooth_gaze_unfold s h v) as [_ Hr]. rewrite Hr, Hk, Hh.
  assert (E : forall pre, (List.length pre <= 3)%nat ->
              push_history (pre ++ [k; k; k; k]) k = pre ++ [k; k; k; k; k]
              \/ exists x pre', pre = x :: pre'
                   /\ push_history (pre ++ [k; k; k; k]) k = pre' ++ [k; k; k; k; k]).
  { intros pre Hp. unfold push_history, max_history_size.
    destruct pre as [|x1 [|x2 [|x3 [|x4 pre']]]]; simpl in Hp; try lia; simpl.
    - now left.
    - now left.
    - now left.
    - right. now exists x1, [x2; x3]. }
  assert (L : forall pre, (List.length pre <= 3)%nat ->
              lastn 5 (pre ++ [k; k; k; k; k]) = [k; k; k; k; k]).
  { intros pre Hp. unfold lastn. rewrite length_app. simpl.
    replace (List.length pre + 5 - 5)%nat with (List.length pre + 0)%nat by lia.
    now rewrite skipn_app, Nat.add_0_r, skipn_all, Nat.sub_diag. }
  assert (G : forall pre, (List.length pre <= 3)%nat ->
              Nat.leb 5 (List.length (pre ++ [k; k; k; k; k])) = true).
  { intros pre _. apply Nat.leb_le. rewrite length_app. simpl. lia. }
  assert (W : forall x, weighted5 x x x x x == x)
    by (intro x; unfold weighted5; field).
  destruct (E older Ho) as [-> | [x [pre' [-> ->]]]].
  - rewrite G, L by assumption. simpl map.
    f_equal; (etransitivity; [apply round_comp, np_average_weights|]);
      apply round_comp, W.
  - simpl in Ho. rewrite G, L by lia. simpl map.
    f_equal; (etransitivity; [apply round_comp, np_average_weights|]);
      apply round_comp, W.
Qed.

End GazeSmoothingFacts.

(** The fifth sample of a stream 1, 2, 3, 4, 5: the weighted average 3.5. *)
Lemma smooth_gaze_history_and_average_witness :
  (List.length (gaze_history four_samples) <= 7)%nat
  /\ gaze_history
       (fst (smooth_gaze last_value_seed last_value_predict last_value_correct
                         four_samples 5 5))
     = [(1, 1); (2, 2); (3, 3); (4, 4); (5, 5)]
  /\ exists x1 x2 x3 x4 x5,
       snd (smooth_gaze last_value_seed last_value_predict last_value_correct
                        four_samples 5 5)
       = (Py.round (weighted5 (fst x1) (fst x2) (fst x3) (fst x4) (fst x5)) 2,
          Py.round (weighted5 (snd x1) (snd x2) (snd x3) (snd x4) (snd x5)) 2).
Proof.
  assert (H : (List.length (gaze_history four_samples) <= 7)%nat) by (simpl; lia).
  split; [exact H|].
  destruct (smooth_gaze_history_and_average Q last_value_seed last_value_predict
              last_value_correct four_samples 5 5 H) as [H1 [_ [_ H4]]].
  split; [exact H1|].
  destruct H4 as [x1 [x2 [x3 [x4 [x5 [_ E]]]]]]; [simpl; lia|].
  exists x1, x2, x3, x4, x5. exact E.
Defined.

Example smooth_gaze_fifth_sample :
  snd (smooth_gaze last_value_seed last_value_predict last_value_correct
                   four_samples 5 5) = (350 # 100, 350 # 100).
Proof. reflexivity. Qed.

(* ================================================================== *)
(** ** Head pose: the stated property *)
(* ================================================================== *)

(** C5.  For every rotation matrix, with [sy = sqrt(R[0,0]^2 + R[1,0]^2)]:
    yaw is [atan2(-R[2,0], sy)] in both cases; unless [sy < 1e-6], pitch is
    [atan2(R[2,1], R[2,2])] and roll is [atan2(R[1,0], R[0,0])]; when
    [sy < 1e-6], pitch is [atan2(-R[1,2], R[1,1])] and roll is 0. *)
Theorem euler_angles_extraction (np_sqrt : Q -> Q) (np_arctan2 : Q -> Q -> Q)
    (R : Matrix3) :
  let sy := np_sqrt (R 0%nat 0%nat ^ 2 + R 1%nat 0%nat ^ 2) in
  let e := euler_angles np_sqrt np_arctan2 R in
  e_yaw e = np_arctan2 (- R 2%nat 0%nat) sy
  /\ (~ sy < singular_eps ->
      e_pitch e = np_arctan2 (R 2%nat 1%nat) (R 2%nat 2%nat)
      /\ e_roll e = np_arctan2 (R 1%nat 0%nat) (R 0%nat 0%nat))
  /\ (sy < singular_eps ->
      e_pitch e = np_arctan2 (- R 1%nat 2%nat) (R 1%nat 1%nat)
      /\ e_roll e = 0).
Proof.
  intros sy e. subst e. unfold euler_angles. fold sy.
  destruct (Py.ltb sy singular_eps) eqn:E; simpl.
  - apply ltb_lt in E. split; [reflexivity|]. split.
    + intro H. contradiction.
    + intro. split; reflexivity.
  - apply ltb_ge in E. split; [reflexivity|]. split.
    + intro. split; reflexivity.
    + intro H. exfalso. now apply (Qlt_not_le sy singular_eps).
Qed.

(* ================================================================== *)
(** ** The report: sorting *)
(* ================================================================== *)

Lemma insert_event_perm e l : Permutation (insert_event e l) (e :: l).
Proof.
  induction l as [|x r IH]; simpl; [reflexivity|].
  destruct (Py.ltb (ev_timestamp x) (ev_timestamp e)); [|reflexivity].
  rewrite IH. apply perm_swap.
Qed.

Lemma sort_by_timestamp_perm l : Permutation (sort_by_timestamp l) l.
Proof.
  induction l as [|e l IH]; simpl; [reflexivity|].
  rewrite insert_event_perm. now constructor.
Qed.

Lemma insert_event_sorted e l :
  StronglySorted by_start_time l -> StronglySorted by_start_time (insert_event e l).
Proof.
  induction 1 as [|x r Hr IH Hx]; simpl.
  - constructor; constructor.
  - destruct (Py.ltb (ev_timestamp x) (ev_timestamp e)) eqn:E.
    + apply ltb_lt in E. constructor; [exact IH|].
      apply (Permutation_Forall (Permutation_sym (insert_event_perm e r))).
      constructor; [now apply Qlt_le_weak | exact Hx].
    + apply ltb_ge in E. constructor; [now constructor|].
      constructor; [exact E|].
      apply Forall_impl with (P := by_start_time x); [|exact Hx].
      intros y Hy. unfold by_start_time in *.
      now apply Qle_trans with (ev_timestamp x).
Qed.

Lemma sort_by_timestamp_sorted l : StronglySorted by_start_time (sort_by_timestamp l).
Proof.
  induction l as [|e l IH]; simpl; [constructor|]. now apply insert_event_sorted.
Qed.

Lemma sort_by_timestamp_nil l : sort_by_timestamp l = [] -> l = [].
Proof.
  intro H. pose proof (sort_by_timestamp_perm l) as P. rewrite H in P.
  now apply Permutation_nil.
Qed.

(* ================================================================== *)
(** ** The report: groups *)
(* ================================================================== *)

Open Scope string_scope.

Lemma prefix_app s t : String.prefix s (s ++ t) = true.
Proof.
  induction s as [|a s IH]; simpl.
  - now destruct t.
  - destruct (ascii_dec a a); [exact IH | congruence].
Qed.

Lemma append_group_In g gs group_name occs :
  In g (append_group gs group_name occs) ->
  In g gs \/ (occs <> [] /\ g = mkGesture group_name occs).
Proof.
  destruct occs as [|o occs]; simpl; [now left|].
  intro H. apply in_app_or in H. destruct H as [H | [<- | []]]; [now left|].
  right. split; [discriminate | reflexivity].
Qed.

(** The four filters of the report pick the events by their group. *)
Lemma head_filter c : str_in (category_name c) head_types = String.eqb (group_of c) "head_movement".
Proof. now destruct c. Qed.

Lemma gaze_filter c : str_in (category_name c) gaze_types = String.eqb (group_of c) "Eye_movement".
Proof. now destruct c. Qed.

Lemma face_missing_filter c :
  String.eqb (category_name c) "face_missing" = String.eqb (group_of c) "face_missing".
Proof. now destruct c. Qed.

Lemma multiple_faces_filter c :
  String.eqb (category_name c) "multiple_faces" = String.eqb (group_of c) "multiple_faces".
Proof. now destruct c. Qed.

(** A sorted, filtered event list holds the events of one group, each of
    them an event of the input, in ascending order of start time. *)
Lemma group_events_spec (p : ViolationEvent -> bool) group_name evs :
  (forall e, p e = String.eqb (group_of (ev_type e)) group_name) ->
  let es := sort_by_timestamp (filter p evs) in
  StronglySorted by_start_time es
  /\ Permutation es
       (filter (fun e => String.eqb (group_of (ev_type e)) group_name) evs)
  /\ Forall (fun e => In e evs /\ group_of (ev_type e) = group_name) es.
Proof.
  intros Hp es. subst es.
  split; [apply sort_by_timestamp_sorted|]. split.
  - rewrite sort_by_timestamp_perm. now rewrite (filter_ext _ _ Hp).
  - apply Forall_forall. intros e He.
    apply (Permutation_in _ (sort_by_timestamp_perm _)) in He.
    apply filter_In in He. destruct He as [He Hpe].
    split; [exact He|]. rewrite Hp in Hpe. now apply String.eqb_eq.
Qed.

(** The groups of a report: each one of the four, built from its sorted
    event list, and only when that list is not empty. *)
Lemma report_gestures_groups evs g :
  In g (report_gestures evs) ->
  occurrence g <> []
  /\ ((name g = "head_movement"
       /\ occurrence g = map (direction_occurrence "head_") (head_events evs))
      \/ (name g = "Eye_movement"
          /\ occurrence g = map (direction_occurrence "gaze_") (gaze_events evs))
      \/ (name g = "face_missing"
          /\ occurrence g = map presence_occurrence (face_missing_events evs))
      \/ (name g = "multiple_faces"
          /\ occurrence g = map presence_occurrence (multiple_faces_events evs))).
Proof.
  unfold report_gestures. intro H.
  apply append_group_In in H. destruct H as [H | [Hne ->]].
  - apply append_group_In in H. destruct H as [H | [Hne ->]].
    + apply append_group_In in H. destruct H as [H | [Hne ->]].
      * apply append_group_In in H. destruct H as [[] | [Hne ->]].
        split; [exact Hne|]. left. now split.
      * split; [exact Hne|]. right. left. now split.
    + split; [exact Hne|]. right. right. left. now split.
  - split; [exact Hne|]. right. right. right. now split.
Qed.

Lemma Forall2_map_r {A B : Type} (P : A -> B -> Prop) (f : A -> B) l :
  Forall (fun a => P a (f a)) l -> Forall2 P l (map f l).
Proof. induction 1; simpl; constructor; assumption. Qed.

Lemma direction_occurrence_head e :
  group_of (ev_type e) = "head_movement" ->
  occurrence_shows e (direction_occurrence "head_" e).
Proof.
  intro Hg. unfold occurrence_shows. split; [reflexivity|].
  destruct e as [c t d i]. simpl in Hg.
  destruct c; try discriminate Hg; simpl is_presence; cbv iota;
    (split; [left; reflexivity|]);
    (split; [simpl; tauto|]);
    exists (str_whole_float (Py.round i 0));
    (split; [reflexivity|]);
    unfold str_whole_float, Py.round; cbn [ev_intensity];
    rewrite Qfloor_Z; apply prefix_app.
Qed.

Lemma direction_occurrence_gaze e :
  group_of (ev_type e) = "Eye_movement" ->
  occurrence_shows e (direction_occurrence "gaze_" e).
Proof.
  intro Hg. unfold occurrence_shows. split; [reflexivity|].
  destruct e as [c t d i]. simpl in Hg.
  destruct c; try discriminate Hg; simpl is_presence; cbv iota;
    (split; [right; reflexivity|]);
    (split; [simpl; tauto|]);
    exists (str_whole_float (Py.round i 0));
    (split; [reflexivity|]);
    unfold str_whole_float, Py.round; cbn [ev_intensity];
    rewrite Qfloor_Z; apply prefix_app.
Qed.

Lemma presence_occurrence_shows e :
  is_presence (ev_type e) = true -> occurrence_shows e (presence_occurrence e).
Proof.
  intro Hp. unfold occurrence_shows. rewrite Hp. repeat split.
Qed.

Close Scope string_scope.

(* ================================================================== *)
(** ** The report: the stated properties *)
(* ================================================================== *)

Open Scope string_scope.

(** C8.  For every event list, no group of the report has an empty
    occurrence list, and the occurrences of a group are, one for one and in
    the same order, the events of that group sorted ascending by start
    time. *)
Theorem report_groups_nonempty_sorted (evs : list ViolationEvent) :
  Forall (fun g =>
            occurrence g <> []
            /\ exists es,
                 StronglySorted by_start_time es
                 /\ Permutation es
                      (filter (fun e => String.eqb (group_of (ev_type e)) (name g)) evs)
                 /\ map occ_timestamp (occurrence g)
                    = map (fun e => _format_timestamp (ev_timestamp e)) es
                 /\ map occ_duration (occurrence g)
                    = map (fun e => Py.round (ev_duration e) 1) es)
         (report_gestures evs).
Proof.
  apply Forall_forall. intros g Hg.
  destruct (report_gestures_groups evs g Hg)
    as [Hne [[Hn Ho] | [[Hn Ho] | [[Hn Ho] | [Hn Ho]]]]];
    (split; [exact Hne|]); rewrite Hn, Ho.
  - exists (head_events evs).
    destruct (group_events_spec _ "head_movement" evs
                (fun e => head_filter (ev_type e))) as [Hs [Hp _]].
    split; [exact Hs|]. split; [exact Hp|]. now rewrite !map_map.
  - exists (gaze_events evs).
    destruct (group_events_spec _ "Eye_movement" evs
                (fun e => gaze_filter (ev_type e))) as [Hs [Hp _]].
    split; [exact Hs|]. split; [exact Hp|]. now rewrite !map_map.
  - exists (face_missing_events evs).
    destruct (group_events_spec _ "face_missing" evs
                (fun e => face_missing_filter (ev_type e))) as [Hs [Hp _]].
    split; [exact Hs|]. split; [exact Hp|]. now rewrite !map_map.
  - exists (multiple_faces_events evs).
    destruct (group_events_spec _ "multiple_faces" evs
                (fun e => multiple_faces_filter (ev_type e))) as [Hs [Hp _]].
    split; [exact Hs|]. split; [exact Hp|]. now rewrite !map_map.
Qed.

(** Three head events out of order, and nothing else: one group, sorted. *)
Example report_sorts_head_events :
  report_gestures [mkEvent head_left 70 (5 # 10) 41; mkEvent head_down 3 1 25;
                   mkEvent head_right 30 (3 # 10) 35]
  = [mkGesture "head_movement"
       [mkOccurrence "0:03" (10 # 10) "down" "25.0 degrees";
        mkOccurrence "0:30" (3 # 10) "right" "35.0 degrees";
        mkOccurrence "1:10" (5 # 10) "left" "41.0 degrees"]].
Proof. reflexivity. Qed.

(** The timestamps of the docstring of [_format_timestamp]. *)
Example format_timestamp_examples :
  _format_timestamp (22345 # 1000) = "0:22"
  /\ _format_timestamp (105678 # 1000) = "1:45"
  /\ _format_timestamp (78 # 1000) = "0:00"
  /\ _format_timestamp (655 # 10) = "1:05".
Proof. repeat split. Qed.



Close Scope string_scope.

(* ================================================================== *)
(** ** ViolationTracker: what every check keeps *)
(* ================================================================== *)

(** A property every single check keeps is kept by the frame loop and by
    [finalize]. *)
Lemma check_all_keeps (P : ViolationTracker -> Prop) cond ts int cs :
  (forall tr c b t i, P tr -> P (_check_and_update_violation tr c b t i)) ->
  forall tr, P tr -> P (check_all cond ts int cs tr).
Proof.
  intro Hstep. induction cs as [|c cs IH]; intros tr Htr; [exact Htr|].
  apply IH. now apply Hstep.
Qed.

Lemma feed_keeps (P : ViolationTracker -> Prop) th frames :
  (forall tr c b t i, P tr -> P (_check_and_update_violation tr c b t i)) ->
  forall tr, P tr -> P (feed th frames tr).
Proof.
  intro Hstep. induction frames as [|f frames IH]; intros tr Htr; [exact Htr|].
  apply IH. rewrite update_is_check_all. now apply check_all_keeps.
Qed.

Lemma run_keeps (P : ViolationTracker -> Prop) th frames :
  (forall tr c b t i, P tr -> P (_check_and_update_violation tr c b t i)) ->
  P tracker_init -> P (run th frames).
Proof.
  intros Hstep H0. unfold run. rewrite finalize_is_check_all.
  apply check_all_keeps; [exact Hstep|]. now apply feed_keeps.
Qed.

(** A check whose condition is false does nothing at all to a tracker
    whose category is inactive. *)
Lemma check_false_inactive tr c ts i :
  active (active_violations tr c) = false ->
  _check_and_update_violation tr c false ts i = tr.
Proof. intro H. unfold _check_and_update_violation. now rewrite H. Qed.

Lemma check_counts tr c b ts i c' :
  counts (_check_and_update_violation tr c b ts i) c'
  = (counts tr c'
     + List.length (cat_events c' (step_events c (active_violations tr c) b)))%nat.
Proof.
  unfold _check_and_update_violation, step_events, end_events.
  destruct b; destruct (active (active_violations tr c)) eqn:Ea; simpl;
    try (now rewrite Nat.add_0_r).
  unfold _end_violation. rewrite Ea.
  destruct (Py.geb _ _); simpl; [|now rewrite Nat.add_0_r].
  unfold set_item, Category_eqb.
  destruct (Category_eq_dec c c') as [<-|Hn]; simpl; lia.
Qed.

Lemma check_timestamps tr c b ts i c' :
  timestamps (_check_and_update_violation tr c b ts i) c'
  = timestamps tr c'
    ++ map (fun e => Py.round (ev_timestamp e) 2)
           (cat_events c' (step_events c (active_violations tr c) b)).
Proof.
  unfold _check_and_update_violation, step_events, end_events.
  destruct b; destruct (active (active_violations tr c)) eqn:Ea; simpl;
    try (now rewrite app_nil_r).
  unfold _end_violation. rewrite Ea.
  destruct (Py.geb _ _); simpl; [|now rewrite app_nil_r].
  unfold set_item, Category_eqb.
  destruct (Category_eq_dec c c') as [<-|Hn]; simpl;
    [reflexivity | now rewrite app_nil_r].
Qed.

Lemma check_keeps_books tr c b ts i :
  books_agree tr -> books_agree (_check_and_update_violation tr c b ts i).
Proof.
  intros H c'. destruct (H c') as [Hc Ht].
  rewrite check_counts, check_timestamps, check_events, cat_events_app.
  rewrite length_app, map_app, Hc, Ht. split; reflexivity.
Qed.

(** X1.  Whatever frames were fed, and whether or not [finalize] has run,
    [get_counts] gives for every category the number of its events in
    [get_all_events], and [get_timestamps] the start times of those events,
    rounded to 2 decimals, in the order they were recorded. *)
Theorem counts_and_timestamps_follow_events (th : Thresholds)
    (frames : list FrameSignal) (c : Category) :
  let fed := feed th frames tracker_init in
  let done := run th frames in
  get_counts fed c = List.length (cat_events c (get_all_events fed))
  /\ get_timestamps fed c
     = map (fun e => Py.round (ev_timestamp e) 2) (cat_events c (get_all_events fed))
  /\ get_counts done c = List.length (cat_events c (get_all_events done))
  /\ get_timestamps done c
     = map (fun e => Py.round (ev_timestamp e) 2) (cat_events c (get_all_events done)).
Proof.
  intros fed done.
  assert (H0 : books_agree tracker_init) by (intro c'; split; reflexivity).
  assert (Hf : books_agree fed)
    by (apply feed_keeps; [apply check_keeps_books | exact H0]).
  assert (Hd : books_agree done)
    by (apply run_keeps; [apply check_keeps_books | exact H0]).
  destruct (Hf c) as [Hf1 Hf2]. destruct (Hd c) as [Hd1 Hd2].
  unfold get_counts, get_timestamps, get_all_events.
  repeat split; assumption.
Qed.

(** *** The whole event list *)

Lemma flat_map_agree {A B : Type} (f g : A -> list B) l :
  (forall x, In x l -> f x = g x) -> flat_map f l = flat_map g l.
Proof.
  induction l as [|a l IH]; intro H; [reflexivity|].
  simpl. rewrite (H a (or_introl eq_refl)), IH; [reflexivity|].
  intros x Hx. apply H. now right.
Qed.

Lemma check_all_events cond ts int cs : forall tr,
  NoDup cs ->
  violation_events (check_all cond ts int cs tr)
  = violation_events tr
    ++ flat_map (fun c => step_events c (active_violations tr c) (cond c)) cs.
Proof.
  induction cs as [|c cs IH]; intros tr Hnd; simpl.
  - now rewrite app_nil_r.
  - inversion Hnd as [|? ? Hni Hnd']; subst.
    change (check_all cond ts int (c :: cs) tr)
      with (check_all cond ts int cs
              (_check_and_update_violation tr c (cond c) ts (int c))).
    rewrite (IH _ Hnd'), check_events, <- app_assoc. f_equal. f_equal.
    apply flat_map_agree. intros c' Hin.
    rewrite check_state_other; [reflexivity|].
    intro E. subst. contradiction.
Qed.

Lemma step_events_types c s b : Forall (fun e => ev_type e = c) (step_events c s b).
Proof.
  unfold step_events, end_events. destruct b; [constructor|].
  destruct (active s && Py.geb (duration s) min_duration); repeat constructor.
Qed.

Lemma flat_map_types (g : Category -> list ViolationEvent) cs :
  (forall c, Forall (fun e => ev_type e = c) (g c)) ->
  (forall c, (List.length (g c) <= 1)%nat) ->
  NoDup cs ->
  NoDup (map ev_type (flat_map g cs))
  /\ Forall (fun e => In (ev_type e) cs) (flat_map g cs).
Proof.
  intros Hty Hlen. induction 1 as [|c cs Hni Hnd [IH1 IH2]]; simpl.
  - split; constructor.
  - specialize (Hty c). specialize (Hlen c).
    destruct (g c) as [|e [|e' r]]; simpl in *; try lia.
    + split; [exact IH1|]. apply Forall_impl with (2 := IH2). intros; now right.
    + inversion Hty as [|? ? He _]; subst. split.
      * constructor; [|exact IH1]. intro Hin. apply in_map_iff in Hin.
        destruct Hin as [e2 [E2 Hin2]]. rewrite Forall_forall in IH2.
        apply IH2 in Hin2. rewrite E2 in Hin2. contradiction.
      * constructor; [now left|].
        apply Forall_impl with (2 := IH2). intros; now right.
Qed.

Lemma step_events_length c s b : (List.length (step_events c s b) <= 1)%nat.
Proof.
  unfold step_events, end_events. destruct b; simpl; [lia|].
  destruct (active s && Py.geb (duration s) min_duration); simpl; lia.
Qed.

(** X2.  One call of [update] never touches an event already recorded: the
    new list is the old one followed by the events of the categories whose
    violation ended on this frame, at most one per category, in the fixed
    order of the categories. *)
Theorem update_only_appends (tr : ViolationTracker) (f : FrameSignal)
    (th : Thresholds) :
  let new := flat_map (fun c => if category_condition c th f then []
                                else end_events c (active_violations tr c))
                      all_categories in
  get_all_events (update_violations tr f th) = get_all_events tr ++ new
  /\ NoDup (map ev_type new)
  /\ (List.length new <= 10)%nat.
Proof.
  intro new. unfold get_all_events.
  rewrite update_is_check_all.
  rewrite check_all_events by apply NoDup_all_categories.
  fold (step_events).
  change (flat_map (fun c => step_events c (active_violations tr c)
                                         (category_condition c th f)) all_categories)
    with new.
  split; [reflexivity|].
  destruct (flat_map_types
              (fun c => step_events c (active_violations tr c) (category_condition c th f))
              all_categories
              (fun c => step_events_types c _ _)
              (fun c => step_events_length c _ _)
              NoDup_all_categories) as [Hnd Hin].
  split; [exact Hnd|].
  change 10%nat with (List.length all_categories).
  rewrite <- (length_map ev_type new).
  apply NoDup_incl_length; [exact Hnd|].
  intros c _. apply In_all_categories.
Qed.

(** *** Active exactly while the condition holds *)

Lemma step_state_active s b ts i : active (step_state s b ts i) = b.
Proof.
  unfold step_state, on_true, on_false. destruct b; [|reflexivity].
  destruct (active s); reflexivity.
Qed.

(** After any call of [update], a category is active exactly when its
    condition held on that frame. *)
Lemma active_after_update tr f th c :
  active (active_violations (update_violations tr f th) c)
  = category_condition c th f.
Proof.
  rewrite (proj1 (update_category tr f th c)). apply step_state_active.
Qed.

Lemma opposite_conditions th f c :
  thresholds_nonneg th ->
  category_condition c th f && category_condition (opposite c) th f = false.
Proof.
  intros [H1 [H2 [H3 H4]]].
  destruct (category_condition c th f) eqn:Ec; [|reflexivity].
  destruct (category_condition (opposite c) th f) eqn:Eo; [|reflexivity].
  exfalso.
  apply category_condition_holds in Ec. apply category_condition_holds in Eo.
  destruct c; simpl in Ec, Eo; try lia;
    destruct Ec as [v [Ev Hv]]; destruct Eo as [w [Ew Hw]];
    rewrite Ev in Ew; injection Ew as <-; lra.
Qed.

(** X3.  With thresholds that are not negative, the two directions of one
    axis are never active together after a call of [update], and neither
    are [face_missing] and [multiple_faces]. *)
Theorem opposite_directions_exclusive (tr : ViolationTracker) (f : FrameSignal)
    (th : Thresholds) (c : Category) :
  thresholds_nonneg th ->
  active (active_violations (update_violations tr f th) c)
  && active (active_violations (update_violations tr f th) (opposite c)) = false.
Proof.
  intro H. rewrite !active_after_update. now apply opposite_conditions.
Qed.

Lemma opposite_directions_exclusive_witness :
  thresholds_nonneg get_default_thresholds
  /\ active (active_violations
              (update_violations tracker_init (gaze_frame 0 (Some 9) 1)
                                 get_default_thresholds) gaze_right)
     && active (active_violations
                 (update_violations tracker_init (gaze_frame 0 (Some 9) 1)
                                    get_default_thresholds) (opposite gaze_right))
     = false.
Proof.
  assert (H : thresholds_nonneg get_default_thresholds)
    by (unfold thresholds_nonneg; simpl; repeat split; discriminate).
  split; [exact H|].
  exact (opposite_directions_exclusive tracker_init (gaze_frame 0 (Some 9) 1)
           get_default_thresholds gaze_right H).
Defined.

(** *** [finalize] a second time *)

Lemma check_all_false_inactive ts int cs : forall tr,
  (forall c, active (active_violations tr c) = false) ->
  check_all (fun _ => false) ts int cs tr = tr.
Proof.
  induction cs as [|c cs IH]; intros tr H; [reflexivity|].
  change (check_all (fun _ => false) ts int (c :: cs) tr)
    with (check_all (fun _ => false) ts int cs
            (_check_and_update_violation tr c false ts (int c))).
  rewrite check_false_inactive by apply H. now apply IH.
Qed.

(** X4.  [finalize] leaves no category active, and running it once more
    (as [cleanup] does after [process_video]) changes nothing: no event is
    recorded twice. *)
Theorem finalize_twice (tr : ViolationTracker) :
  (forall c, active (active_violations (finalize tr) c) = false)
  /\ finalize (finalize tr) = finalize tr.
Proof.
  assert (H : forall c, active (active_violations (finalize tr) c) = false).
  { intro c. now rewrite (proj1 (finalize_category tr c)). }
  split; [exact H|].
  rewrite (finalize_is_check_all (finalize tr)).
  now apply check_all_false_inactive.
Qed.

(** *** The recorded maxima *)

Lemma max_lb_left a b : a <= Py.max a b.
Proof. apply max_ub. Qed.

Lemma max_lb_right a b : b <= Py.max a b.
Proof. apply max_ub. Qed.

(** No check lowers a recorded maximum. *)
Lemma check_maxima_grow tr c b ts i c' :
  max_intensities tr c' <= max_intensities (_check_and_update_violation tr c b ts i) c'.
Proof.
  unfold _check_and_update_violation.
  destruct b; destruct (active (active_violations tr c)) eqn:Ea; simpl;
    try apply Qle_refl.
  - unfold set_item, Category_eqb.
    destruct (Category_eq_dec c c') as [<-|Hn]; [apply max_lb_left | apply Qle_refl].
  - unfold _end_violation. rewrite Ea. destruct (Py.geb _ _); simpl; apply Qle_refl.
Qed.

Lemma update_maxima tr c ts i :
  active (active_violations tr c) = true ->
  max_intensities (_check_and_update_violation tr c true ts i) c
  = Py.max (max_intensities tr c)
           (Py.max (max_intensity (active_violations tr c)) i).
Proof.
  intro Ha. unfold _check_and_update_violation. rewrite Ha. simpl.
  now rewrite set_item_same.
Qed.

Lemma check_keeps_maxima tr c b ts i :
  maxima_bound tr -> maxima_bound (_check_and_update_violation tr c b ts i).
Proof.
  intros [Hst Hev].
  assert (Hev' : Forall (fun e => ev_intensity e
                   <= max_intensities (_check_and_update_violation tr c b ts i) (ev_type e))
                        (violation_events tr)).
  { apply Forall_impl with (2 := Hev). intros e He.
    apply Qle_trans with (1 := He). apply check_maxima_grow. }
  split.
  - intros c' Hd.
    destruct (Category_eq_dec c c') as [<-|Hn].
    + rewrite check_state_same in Hd |- *.
      destruct b.
      * unfold step_state, on_true in Hd |- *.
        destruct (active (active_violations tr c)) eqn:Ea.
        -- cbn [max_intensity]. rewrite update_maxima by assumption.
           apply max_lb_right.
        -- cbn [duration] in Hd. discriminate Hd.
      * unfold step_state, on_false in Hd |- *.
        cbn [duration max_intensity] in Hd |- *.
        apply Qle_trans with (1 := Hst c Hd). apply check_maxima_grow.
    + rewrite check_state_other in Hd |- * by assumption.
      apply Qle_trans with (1 := Hst c' Hd). apply check_maxima_grow.
  - rewrite check_events. apply Forall_app. split; [exact Hev'|].
    unfold step_events, end_events.
    destruct b; [constructor|].
    destruct (active (active_violations tr c)) eqn:Ea; [|constructor].
    destruct (Py.geb (duration (active_violations tr c)) min_duration) eqn:Ed;
      [|constructor].
    cbn [andb]. constructor; [|constructor]. cbn [ev_intensity ev_type].
    apply Qle_trans with (1 := Hst c Ed). apply check_maxima_grow.
Qed.

(** X5.  After any frames and [finalize], the intensity of every recorded
    event is at most what [get_all_max_intensities] reports for the event's
    category. *)
Theorem max_intensities_bound_events (th : Thresholds) (frames : list FrameSignal) :
  Forall (fun e => ev_intensity e
                   <= get_all_max_intensities (run th frames) (ev_type e))
         (get_all_events (run th frames)).
Proof.
  assert (H0 : maxima_bound tracker_init).
  { split; [|constructor]. intros c Hd. discriminate Hd. }
  exact (proj2 (run_keeps maxima_bound th frames check_keeps_maxima H0)).
Qed.

(* ================================================================== *)
(** ** ViolationTracker: events in time *)
(* ================================================================== *)

Lemma run_start_is_sample {A : Type} (l : list (bool * (Q * A))) r :
  In r (runs l) ->
  exists x, In (true, x) l /\ match r with [] => False | y :: _ => y = x end.
Proof.
  intro Hr. destruct (runs_In l r Hr) as [Hne Hall].
  destruct r as [|y r']; [congruence|].
  exists y. split; [apply Hall; now left | reflexivity].
Qed.

(** With timestamps that never go back, the spans of a category start in
    ascending order. *)
Lemma runs_starts_sorted l :
  StronglySorted Qle (map (fun x => fst (snd x)) l) ->
  StronglySorted (fun r r' => span_start r <= span_start r') (runs l).
Proof.
  induction l as [|[b a] l IH]; intro Hs; [constructor|].
  simpl in Hs. inversion Hs as [|? ? Hs' Hall]; subst.
  specialize (IH Hs').
  destruct b; [|exact IH].
  assert (F : Forall (fun r => fst a <= span_start r) (runs l)).
  { apply Forall_forall. intros r Hr.
    destruct (run_start_is_sample l r Hr) as [x [Hx E]].
    destruct r as [|y r']; [contradiction|]. subst y.
    rewrite Forall_forall in Hall.
    destruct x as [t i]. simpl. apply (Hall t).
    apply in_map_iff. now exists (true, (t, i)). }
  destruct l as [|[[|] b'] l'].
  - simpl. repeat constructor.
  - rewrite runs_true_true.
    destruct (runs ((true, b') :: l')) as [|r0 rs] eqn:E.
    + repeat constructor.
    + inversion IH as [|? ? IHrs IHr0]; subst.
      inversion F as [|? ? _ Frs]; subst.
      constructor; [exact IHrs|].
      destruct a as [t i]. exact Frs.
  - change (runs ((true, a) :: (false, b') :: l'))
      with ([a] :: runs ((false, b') :: l')).
    constructor; [exact IH|]. destruct a as [t i]. exact F.
Qed.

Lemma events_of_runs_sorted c rs :
  StronglySorted (fun r r' => span_start r <= span_start r') rs ->
  StronglySorted by_start_time (events_of_runs c rs).
Proof.
  induction 1 as [|r rs Hrs IH Hr]; [constructor|].
  unfold events_of_runs in *. simpl.
  destruct (reportable r); [|exact IH].
  simpl. constructor; [exact IH|].
  apply Forall_forall. intros e He.
  apply in_map_iff in He. destruct He as [r' [<- Hr']].
  apply filter_In in Hr'. destruct Hr' as [Hr' _].
  rewrite Forall_forall in Hr. exact (Hr r' Hr').
Qed.

Lemma removelast_sorted {A : Type} (R : A -> A -> Prop) l :
  StronglySorted R l -> StronglySorted R (removelast l).
Proof.
  induction 1 as [|a l Hl IH Ha]; [constructor|].
  simpl. destruct l as [|b l']; [constructor|].
  constructor; [exact IH|].
  apply Forall_forall. intros x Hx. rewrite Forall_forall in Ha.
  apply Ha. destruct l' as [|c l'']; [contradiction|].
  change (In x (b :: removelast (c :: l''))) in Hx.
  destruct Hx as [<- | Hx]; [now left|]. right.
  clear - Hx. revert c Hx. induction l'' as [|d l3 IH3]; intros c Hx.
  - contradiction.
  - destruct Hx as [<- | Hx]; [now left|]. right. now apply IH3.
Qed.

Lemma samples_timestamps c th frames :
  map (fun x => fst (snd x)) (samples c th frames) = map timestamp frames.
Proof. unfold samples. rewrite map_map. reflexivity. Qed.

(** X6.  When the timestamps of the frames never go back, the events a
    category has recorded are in ascending order of start time, while the
    frames are fed and after [finalize]. *)
Theorem category_events_chronological (th : Thresholds)
    (frames : list FrameSignal) (c : Category) :
  non_decreasing frames ->
  StronglySorted by_start_time
    (cat_events c (get_all_events (feed th frames tracker_init)))
  /\ StronglySorted by_start_time (cat_events c (get_all_events (run th frames))).
Proof.
  intro Hs. unfold non_decreasing in Hs. unfold get_all_events.
  rewrite <- (samples_timestamps c th frames) in Hs.
  apply runs_starts_sorted in Hs.
  destruct (events_refine th frames c) as [Hf Hr]. rewrite Hf, Hr.
  split; apply events_of_runs_sorted; [|exact Hs].
  unfold closed_runs. destruct (ends_true (samples c th frames)); [|exact Hs].
  now apply removelast_sorted.
Qed.

Lemma category_events_chronological_witness :
  non_decreasing gaze_right_200ms
  /\ StronglySorted by_start_time
       (cat_events gaze_right
          (get_all_events (run get_default_thresholds gaze_right_200ms))).
Proof.
  assert (H : non_decreasing gaze_right_200ms).
  { unfold non_decreasing, gaze_right_200ms. simpl.
    repeat (constructor; [|repeat (constructor; [discriminate|]); constructor]).
    constructor. }
  split; [exact H|].
  exact (proj2 (category_events_chronological get_default_thresholds
                  gaze_right_200ms gaze_right H)).
Defined.

(* ================================================================== *)
(** ** The report: further properties *)
(* ================================================================== *)

Lemma int_of_whole z : Py.int (inject_Z z) = z.
Proof. unfold Py.int. simpl. apply Z.quot_1_r. Qed.

(** On a float that is not negative, [int] is the floor. *)
Lemma int_floor q : 0 <= q -> Py.int q = Qfloor q.
Proof.
  destruct q as [n d]. intro H. unfold Py.int, Qfloor. simpl.
  apply Z.quot_div_nonneg; [|reflexivity].
  unfold Qle in H. simpl in H. lia.
Qed.

Lemma fmt_02d_two_digits (k : nat) :
  (k < 60)%nat -> String.length (fmt_02d (Z.of_nat k)) = 2%nat.
Proof.
  intro H. do 60 (destruct k as [|k]; [reflexivity|]). lia.
Qed.

Lemma fmod_60_range seconds :
  0 <= Py.fmod seconds 60 /\ Py.fmod seconds 60 < 60.
Proof.
  unfold Py.fmod.
  pose proof (Qfloor_le (seconds / 60)) as Hlo.
  pose proof (Qlt_floor (seconds / 60)) as Hhi.
  rewrite inject_Z_plus in Hhi. change (inject_Z 1) with 1 in Hhi.
  assert (E : seconds == 60 * (seconds / 60)) by (field; discriminate).
  set (m := inject_Z (Qfloor (seconds / 60))) in *.
  set (x := seconds / 60) in *.
  split; lra.
Qed.

Open Scope string_scope.


Lemma occurrence_count_append gs group_name occs :
  occurrence_count (append_group gs group_name occs)
  = (occurrence_count gs + List.length occs)%nat.
Proof.
  destruct occs as [|o occs]; simpl; [lia|].
  induction gs as [|g gs IH]; simpl in *; lia.
Qed.

Lemma sorted_length l : List.length (sort_by_timestamp l) = List.length l.
Proof. apply Permutation_length, sort_by_timestamp_perm. Qed.

(** Every event passes exactly one of the four filters of the report. *)
Lemma four_filters_partition evs :
  (List.length (filter (fun e => str_in (category_name (ev_type e)) head_types) evs)
   + List.length (filter (fun e => str_in (category_name (ev_type e)) gaze_types) evs)
   + List.length (filter (fun e => String.eqb (category_name (ev_type e)) "face_missing") evs)
   + List.length (filter (fun e => String.eqb (category_name (ev_type e)) "multiple_faces") evs)
   = List.length evs)%nat.
Proof.
  induction evs as [|[c t d i] evs IH]; [reflexivity|].
  destruct c; simpl in *; lia.
Qed.

(** X8.  The report neither drops nor repeats an event: over all its
    groups it holds as many occurrences as there are events. *)
Theorem report_keeps_every_event (evs : list ViolationEvent) :
  occurrence_count (report_gestures evs) = List.length evs.
Proof.
  unfold report_gestures.
  rewrite !occurrence_count_append, !length_map.
  unfold head_events, gaze_events, face_missing_events, multiple_faces_events.
  rewrite !sorted_length. simpl occurrence_count.
  apply four_filters_partition.
Qed.

Lemma insert_event_not_nil e l : insert_event e l <> [].
Proof.
  destruct l as [|x r]; simpl; [discriminate|].
  destruct (Py.ltb (ev_timestamp x) (ev_timestamp e)); discriminate.
Qed.

Lemma existsb_sorted_filter (p : ViolationEvent -> bool) evs :
  existsb p evs
  = match sort_by_timestamp (filter p evs) with [] => false | _ :: _ => true end.
Proof.
  induction evs as [|e evs IH]; [reflexivity|].
  simpl. destruct (p e); simpl; [|exact IH].
  pose proof (insert_event_not_nil e (sort_by_timestamp (filter p evs))) as H.
  destruct (insert_event e (sort_by_timestamp (filter p evs))); [congruence|reflexivity].
Qed.

Lemma names_append_group gs group_name (f : ViolationEvent -> GestureOccurrence) es :
  map name (append_group gs group_name (map f es))
  = (map name gs ++ match es with [] => [] | _ :: _ => [group_name] end)%list.
Proof.
  destruct es as [|e es]; simpl; [now rewrite app_nil_r|].
  now rewrite map_app.
Qed.

Lemma group_events_has (p : ViolationEvent -> bool) group_name evs :
  (forall e, p e = String.eqb (group_of (ev_type e)) group_name) ->
  match sort_by_timestamp (filter p evs) with [] => [] | _ :: _ => [group_name] end
  = if has_group evs group_name then [group_name] else [].
Proof.
  intro Hp. unfold has_group.
  assert (E : existsb (fun e => String.eqb (group_of (ev_type e)) group_name) evs
              = existsb p evs).
  { induction evs as [|e evs IH]; [reflexivity|]. simpl. now rewrite IH, Hp. }
  rewrite E, existsb_sorted_filter.
  destruct (sort_by_timestamp (filter p evs)); reflexivity.
Qed.

(** X9.  The groups of a report are exactly the groups that have an event,
    each once, in the order [head_movement], [Eye_movement], [face_missing],
    [multiple_faces]; a report of no event has no group. *)
Theorem report_group_order (evs : list ViolationEvent) :
  map name (report_gestures evs) = filter (has_group evs) report_group_names.
Proof.
  unfold report_gestures. rewrite !names_append_group.
  unfold head_events, gaze_events, face_missing_events, multiple_faces_events.
  rewrite (group_events_has _ "head_movement" evs (fun e => head_filter (ev_type e))).
  rewrite (group_events_has _ "Eye_movement" evs (fun e => gaze_filter (ev_type e))).
  rewrite (group_events_has _ "face_missing" evs
             (fun e => face_missing_filter (ev_type e))).
  rewrite (group_events_has _ "multiple_faces" evs
             (fun e => multiple_faces_filter (ev_type e))).
  unfold report_group_names. simpl.
  destruct (has_group evs "head_movement"), (has_group evs "Eye_movement"),
           (has_group evs "face_missing"), (has_group evs "multiple_faces");
    reflexivity.
Qed.

Close Scope string_scope.

Lemma started_at_both t x e :
  started_at t x = true -> started_at t e = true ->
  Py.ltb (ev_timestamp x) (ev_timestamp e) = false.
Proof.
  unfold started_at. intros Hx He.
  apply Qeq_bool_iff in Hx. apply Qeq_bool_iff in He.
  apply ltb_ge. rewrite Hx, He. apply Qle_refl.
Qed.

Lemma insert_event_keeps_ties t e l :
  filter (started_at t) (insert_event e l) = filter (started_at t) (e :: l).
Proof.
  induction l as [|x r IH]; [reflexivity|].
  simpl insert_event.
  destruct (Py.ltb (ev_timestamp x) (ev_timestamp e)) eqn:E; [|reflexivity].
  simpl filter in *. rewrite IH.
  destruct (started_at t x) eqn:Hx; destruct (started_at t e) eqn:He;
    try reflexivity.
  rewrite (started_at_both t x e Hx He) in E. discriminate.
Qed.

Lemma sort_keeps_ties t l :
  filter (started_at t) (sort_by_timestamp l) = filter (started_at t) l.
Proof.
  induction l as [|e l IH]; [reflexivity|].
  simpl sort_by_timestamp. rewrite insert_event_keeps_ties.
  simpl. now rewrite IH.
Qed.

(** X10.  In every group of the report, events that start at the same time
    keep the order in which the tracker recorded them: the sort is stable. *)
Theorem report_sort_is_stable (evs : list ViolationEvent) (t : Q) :
  filter (started_at t) (head_events evs)
  = filter (started_at t) (group_members "head_movement" evs)
  /\ filter (started_at t) (gaze_events evs)
     = filter (started_at t) (group_members "Eye_movement" evs)
  /\ filter (started_at t) (face_missing_events evs)
     = filter (started_at t) (group_members "face_missing" evs)
  /\ filter (started_at t) (multiple_faces_events evs)
     = filter (started_at t) (group_members "multiple_faces" evs).
Proof.
  unfold head_events, gaze_events, face_missing_events, multiple_faces_events,
    group_members.
  rewrite !sort_keeps_ties.
  rewrite (filter_ext _ _ (fun e => head_filter (ev_type e))).
  rewrite (filter_ext _ _ (fun e => gaze_filter (ev_type e))).
  rewrite (filter_ext _ _ (fun e => face_missing_filter (ev_type e))).
  rewrite (filter_ext _ _ (fun e => multiple_faces_filter (ev_type e))).
  repeat split.
Qed.

(* ================================================================== *)
(** ** Resizing *)
(* ================================================================== *)

Lemma scaled_dimension (x max_dim : Z) :
  (0 <= x <= max_dim)%Z -> (MAX_FRAME_DIMENSION < max_dim)%Z ->
  let new := Py.int (inject_Z x * (inject_Z MAX_FRAME_DIMENSION / inject_Z max_dim)) in
  (0 <= new <= MAX_FRAME_DIMENSION)%Z /\ (new <= x)%Z.
Proof.
  intros [Hx0 Hxm] Hm new. unfold MAX_FRAME_DIMENSION in *.
  assert (Hx0q : inject_Z 0 <= inject_Z x) by (rewrite <- Zle_Qle; exact Hx0).
  assert (Hxmq : inject_Z x <= inject_Z max_dim) by (rewrite <- Zle_Qle; exact Hxm).
  assert (Hmq : inject_Z 960 < inject_Z max_dim) by (rewrite <- Zlt_Qlt; exact Hm).
  change (inject_Z 0) with 0 in Hx0q.
  change (inject_Z 960) with 960 in *.
  set (q := inject_Z x * (960 / inject_Z max_dim)) in *.
  assert (Hpos : 0 < inject_Z max_dim) by lra.
  assert (Hs0 : 0 <= 960 / inject_Z max_dim)
    by (apply Qle_shift_div_l; [exact Hpos | lra]).
  assert (Hs1 : 960 / inject_Z max_dim <= 1)
    by (apply Qle_shift_div_r; [exact Hpos | lra]).
  assert (Hq0 : 0 <= q) by (unfold q; now apply Qmult_le_0_compat).
  assert (Hqx : q <= inject_Z x).
  { unfold q. rewrite <- (Qmult_1_r (inject_Z x)) at 2.
    rewrite !(Qmult_comm (inject_Z x)). now apply Qmult_le_compat_r. }
  assert (Hq960 : q <= 960).
  { unfold q. rewrite Qmult_comm.
    apply Qle_trans with ((960 / inject_Z max_dim) * inject_Z max_dim).
    - rewrite !(Qmult_comm (960 / inject_Z max_dim)).
      now apply Qmult_le_compat_r.
    - assert (E : 960 / inject_Z max_dim * inject_Z max_dim == 960)
        by (field; lra).
      rewrite E. apply Qle_refl. }
  subst new. rewrite (int_floor q Hq0).
  pose proof (Qfloor_le q) as Hfl.
  assert (F0 : (0 <= Qfloor q)%Z)
    by (change 0%Z with (Qfloor 0); now apply Qfloor_resp_le).
  split; [split; [exact F0|]|].
  - rewrite Zle_Qle. change (inject_Z 960) with 960. lra.
  - rewrite Zle_Qle. lra.
Qed.



(* ================================================================== *)
(** ** Gaze smoothing: further properties *)
(* ================================================================== *)

Lemma round_half_even_floor q :
  (Qfloor q <= Py.round_half_even q <= Qfloor q + 1)%Z.
Proof.
  unfold Py.round_half_even.
  destruct (Py.ltb _ _); [lia|].
  destruct (Py.ltb _ _); [lia|].
  destruct (Z.even _); lia.
Qed.

(** Rounding keeps the order. *)
Lemma round_half_even_mono q q' :
  q <= q' -> (Py.round_half_even q <= Py.round_half_even q')%Z.
Proof.
  intro H.
  pose proof (Qfloor_resp_le _ _ H) as Hf.
  pose proof (round_half_even_floor q) as B.
  pose proof (round_half_even_floor q') as B'.
  destruct (Z.eq_dec (Qfloor q) (Qfloor q')) as [E|N]; [|lia].
  clear B B'. unfold Py.round_half_even. rewrite <- E.
  destruct (Py.ltb (q - inject_Z (Qfloor q)) (1 # 2)) eqn:L1.
  - destruct (Py.ltb (q' - inject_Z (Qfloor q)) (1 # 2)); [lia|].
    destruct (Py.ltb (1 # 2) (q' - inject_Z (Qfloor q))); [lia|].
    destruct (Z.even (Qfloor q)); lia.
  - apply ltb_ge in L1.
    destruct (Py.ltb (q' - inject_Z (Qfloor q)) (1 # 2)) eqn:L1'.
    + apply ltb_lt in L1'. lra.
    + destruct (Py.ltb (1 # 2) (q - inject_Z (Qfloor q))) eqn:L2.
      * apply ltb_lt in L2.
        destruct (Py.ltb (1 # 2) (q' - inject_Z (Qfloor q))) eqn:L2'; [lia|].
        apply ltb_ge in L2'. lra.
      * destruct (Py.ltb (1 # 2) (q' - inject_Z (Qfloor q))); [|lia].
        destruct (Z.even (Qfloor q)); lia.
Qed.

Lemma round_2_mono q q' : q <= q' -> Py.round q 2 <= Py.round q' 2.
Proof.
  intro H. unfold Py.round.
  change (Pos.pow 10 (Pos.of_nat 2)) with 100%positive.
  assert (M : q * inject_Z 100 <= q' * inject_Z 100).
  { change (inject_Z 100) with 100. lra. }
  apply round_half_even_mono in M.
  unfold Qle. simpl. lia.
Qed.

Lemma weighted5_between lo hi x1 x2 x3 x4 x5 :
  lo <= x1 <= hi -> lo <= x2 <= hi -> lo <= x3 <= hi ->
  lo <= x4 <= hi -> lo <= x5 <= hi ->
  lo <= weighted5 x1 x2 x3 x4 x5 <= hi.
Proof. unfold weighted5. intros. split; lra. Qed.

Section GazeStreamFacts.

Variable KF : Type.
Variable set_statePre : KF -> Q -> KF.
Variable predict : KF -> option KF.
Variable correct : KF -> Q -> option (KF * Q).

(** X12.  The Kalman step marks the filter initialised and leaves the
    history alone.  What it returns is either the two raw angles, which is
    always so on the first call, or the two corrected positions of a
    predict-and-correct that went through on both axes: a failure on either
    axis falls back to the raw pair as a whole. *)
Theorem kalman_step_raw_or_corrected (s : GazeSmoother KF) (h v : Q) :
  let res := _smooth_gaze_with_kalman set_statePre predict correct s h v in
  kalman_initialized (fst res) = true
  /\ gaze_history (fst res) = gaze_history s
  /\ (kalman_initialized s = false ->
      snd res = (h, v)
      /\ kf_horizontal (fst res) = set_statePre (kf_horizontal s) h
      /\ kf_vertical (fst res) = set_statePre (kf_vertical s) v)
  /\ (snd res = (h, v)
      \/ exists kh1 kv1,
           predict (kf_horizontal s) = Some kh1
           /\ predict (kf_vertical s) = Some kv1
           /\ correct kh1 h = Some (kf_horizontal (fst res), fst (snd res))
           /\ correct kv1 v = Some (kf_vertical (fst res), snd (snd res))).
Proof.
  intro res. subst res. unfold _smooth_gaze_with_kalman.
  destruct (kalman_initialized s) eqn:Ei; cbn [negb].
  - destruct (predict (kf_horizontal s)) as [kh1|] eqn:P1;
      [|cbn [fst snd]; repeat split; try assumption; try discriminate; now left].
    destruct (predict (kf_vertical s)) as [kv1|] eqn:P2;
      [|cbn [fst snd]; repeat split; try assumption; try discriminate; now left].
    destruct (correct kh1 h) as [[kh2 hc]|] eqn:C1;
      [|cbn [fst snd]; repeat split; try assumption; try discriminate; now left].
    destruct (correct kv1 v) as [[kv2 vc]|] eqn:C2;
      [|cbn [fst snd]; repeat split; try assumption; try discriminate; now left].
    cbn [fst snd]. split; [exact Ei|]. split; [reflexivity|].
    split; [discriminate|]. right. exists kh1, kv1.
    cbn [kf_horizontal kf_vertical]. repeat split; assumption.
  - cbn [fst snd]. split; [reflexivity|]. split; [reflexivity|].
    split; [intros _; repeat split|]. now left.
Qed.

Lemma smooth_gaze_length (s : GazeSmoother KF) h v :
  (List.length (gaze_history s) <= 7)%nat ->
  List.length (gaze_history (fst (smooth_gaze set_statePre predict correct s h v)))
  = Nat.min (S (List.length (gaze_history s))) 7.
Proof.
  intro H. destruct (smooth_gaze_unfold KF set_statePre predict correct s h v) as [Hh _].
  rewrite Hh. unfold push_history, max_history_size.
  rewrite length_app. simpl List.length.
  destruct (Nat.ltb 7 (List.length (gaze_history s) + 1)) eqn:E.
  - apply Nat.ltb_lt in E.
    destruct (gaze_history s ++ [_]) as [|x l] eqn:El.
    + destruct (gaze_history s); discriminate.
    + apply (f_equal (@List.length _)) in El. rewrite length_app in El.
      simpl in El |- *. lia.
  - apply Nat.ltb_ge in E. rewrite length_app. simpl. lia.
Qed.

Lemma smooth_stream_length : forall angles (s : GazeSmoother KF),
  (List.length (gaze_history s) <= 7)%nat ->
  List.length (gaze_history (fst (smooth_stream set_statePre predict correct s angles)))
  = Nat.min (List.length (gaze_history s) + List.length angles) 7
  /\ List.length (snd (smooth_stream set_statePre predict correct s angles))
     = List.length angles.
Proof.
  induction angles as [|[h v] rest IH]; intros s Hs.
  - simpl. split; [lia | reflexivity].
  - pose proof (smooth_gaze_length s h v Hs) as L1.
    simpl smooth_stream.
    destruct (smooth_gaze set_statePre predict correct s h v) as [s1 out] eqn:E1.
    cbn [fst] in L1.
    assert (Hs1 : (List.length (gaze_history s1) <= 7)%nat) by lia.
    destruct (IH s1 Hs1) as [IH1 IH2].
    destruct (smooth_stream set_statePre predict correct s1 rest) as [s2 outs].
    cbn [fst snd] in *. simpl List.length. split; lia.
Qed.

(** X13.  Over any number of calls on a new smoother, every call returns
    one pair of angles, and the rolling history holds as many samples as
    there were calls, up to seven and never more. *)
Theorem history_length_after_calls (kf_h kf_v : KF) (angles : list (Q * Q)) :
  let res := smooth_stream set_statePre predict correct
                           (fresh_smoother kf_h kf_v) angles in
  List.length (gaze_history (fst res)) = Nat.min (List.length angles) 7
  /\ List.length (snd res) = List.length angles.
Proof.
  intro res. subst res.
  destruct (smooth_stream_length angles (fresh_smoother kf_h kf_v)) as [H1 H2];
    [simpl; lia|].
  split; [exact H1 | exact H2].
Qed.

(** X14.  Once the history holds five samples, the angle a call returns on
    each axis lies between the smallest and the largest of the last five
    history entries of that axis, rounded: the average never leaves the
    range of what the Kalman step produced. *)
Theorem smooth_gaze_within_recent_range (s : GazeSmoother KF) (h v : Q)
    (lo_h hi_h lo_v hi_v : Q) :
  let res := smooth_gaze set_statePre predict correct s h v in
  let history := gaze_history (fst res) in
  (5 <= List.length history)%nat ->
  Forall (fun x => (lo_h <= fst x <= hi_h) /\ (lo_v <= snd x <= hi_v))
         (lastn 5 history) ->
  (Py.round lo_h 2 <= fst (snd res) <= Py.round hi_h 2)
  /\ (Py.round lo_v 2 <= snd (snd res) <= Py.round hi_v 2).
Proof.
  intros res history Hlen Hall.
  destruct (smooth_gaze_unfold KF set_statePre predict correct s h v) as [Hh Hr].
  fold res in Hh, Hr. fold history in Hh. rewrite <- Hh in Hr.
  destruct (lastn_5_cases history Hlen) as [x1 [x2 [x3 [x4 [x5 E5]]]]].
  apply Nat.leb_le in Hlen. rewrite Hlen, E5 in Hr. rewrite E5 in Hall.
  simpl map in Hr. rewrite Hr. cbn [fst snd].
  rewrite (round_comp _ _ 2 (np_average_weights (fst x1) (fst x2) (fst x3) (fst x4) (fst x5))).
  rewrite (round_comp _ _ 2 (np_average_weights (snd x1) (snd x2) (snd x3) (snd x4) (snd x5))).
  inversion Hall as [|? ? [A1 B1] Hall2]; subst.
  inversion Hall2 as [|? ? [A2 B2] Hall3]; subst.
  inversion Hall3 as [|? ? [A3 B3] Hall4]; subst.
  inversion Hall4 as [|? ? [A4 B4] Hall5]; subst.
  inversion Hall5 as [|? ? [A5 B5] _]; subst.
  destruct (weighted5_between lo_h hi_h _ _ _ _ _ A1 A2 A3 A4 A5) as [Wl Wh].
  destruct (weighted5_between lo_v hi_v _ _ _ _ _ B1 B2 B3 B4 B5) as [Vl Vh].
  repeat split; now apply round_2_mono.
Qed.

End GazeStreamFacts.

Lemma smooth_gaze_within_recent_range_witness :
  (5 <= List.length
          (gaze_history
             (fst (smooth_gaze last_value_seed last_value_predict last_value_correct
                               four_samples 5 5))))%nat
  /\ Forall (fun x => (1 <= fst x <= 5) /\ (1 <= snd x <= 5))
       (lastn 5 (gaze_history
                   (fst (smooth_gaze last_value_seed last_value_predict
                                     last_value_correct four_samples 5 5))))
  /\ (Py.round 1 2
      <= fst (snd (smooth_gaze last_value_seed last_value_predict last_value_correct
                               four_samples 5 5))
      <= Py.round 5 2).
Proof.
  assert (H1 : (5 <= List.length
                      (gaze_history
                         (fst (smooth_gaze last_value_seed last_value_predict
                                 last_value_correct four_samples 5 5))))%nat)
    by (simpl; lia).
  assert (H2 : Forall (fun x => (1 <= fst x <= 5) /\ (1 <= snd x <= 5))
                 (lastn 5 (gaze_history
                             (fst (smooth_gaze last_value_seed last_value_predict
                                     last_value_correct four_samples 5 5))))).
  { simpl. repeat constructor; discriminate. }
  split; [exact H1|]. split; [exact H2|].
  exact (proj1 (smooth_gaze_within_recent_range Q last_value_seed last_value_predict
                  last_value_correct four_samples 5 5 1 5 1 5 H1 H2)).
Defined.

(* ================================================================== *)
(** ** process_video *)
(* ================================================================== *)

(** [int] of a negative float is not positive. *)
Lemma int_negative q : q < 0 -> (Py.int q <= 0)%Z.
Proof.
  destruct q as [n d]. unfold Qlt, Py.int. simpl. intro H.
  assert (Hn : (n <= 0)%Z) by lia.
  rewrite <- (Z.opp_involutive n), Z.quot_opp_l by discriminate.
  assert (0 <= Z.quot (- n) (Z.pos d))%Z by (apply Z.quot_pos; lia).
  lia.
Qed.

Lemma frame_skip_positive fps : (1 <= frame_skip_of fps)%Z.
Proof. unfold frame_skip_of. lia. Qed.

(** X15.  From 15 frames per second on, the frames that reach the detectors
    come at a rate of at least [TARGET_FPS] and below twice [TARGET_FPS];
    below 30 frames per second no frame is skipped. *)
Theorem sampling_rate_bounds (fps : Q) :
  (fps < 30 -> frame_skip_of fps = 1%Z)
  /\ (15 <= fps ->
      TARGET_FPS <= fps / inject_Z (frame_skip_of fps)
      /\ fps / inject_Z (frame_skip_of fps) < 2 * TARGET_FPS).
Proof.
  unfold frame_skip_of, TARGET_FPS.
  pose proof (Qfloor_le (fps / 15)) as Flo.
  pose proof (Qlt_floor (fps / 15)) as Fhi.
  rewrite inject_Z_plus in Fhi. change (inject_Z 1) with 1 in Fhi.
  assert (E : fps == 15 * (fps / 15)) by (field; discriminate).
  split.
  - intro H.
    destruct (Qlt_le_dec (fps / 15) 0) as [Hneg | Hpos].
    + pose proof (int_negative _ Hneg). lia.
    + rewrite (int_floor _ Hpos).
      assert (Hf : (Qfloor (fps / 15) < 2)%Z).
      { rewrite Zlt_Qlt. change (inject_Z 2) with 2. lra. }
      assert (H0 : (0 <= Qfloor (fps / 15))%Z)
        by (change 0%Z with (Qfloor 0); now apply Qfloor_resp_le).
      lia.
  - intro H.
    assert (Hpos : 0 <= fps / 15) by lra.
    rewrite (int_floor _ Hpos).
    assert (H1 : (1 <= Qfloor (fps / 15))%Z).
    { change 1%Z with (Qfloor 1). apply Qfloor_resp_le. lra. }
    rewrite Z.max_r by exact H1.
    set (k := Qfloor (fps / 15)) in *.
    assert (Hk : 1 <= inject_Z k)
      by (change 1 with (inject_Z 1); rewrite <- Zle_Qle; exact H1).
    assert (Hk0 : 0 < inject_Z k) by lra.
    split.
    + apply Qle_shift_div_l; [exact Hk0|]. lra.
    + apply Qlt_shift_div_r; [exact Hk0|]. lra.
Qed.

Section ProcessVideoFacts.

Variable Frame : Type.
Variable Detector : Type.
Variable detect : Detector -> Frame -> option (Detector * Detection).
Variable _download_video : string -> option string.
Variable VideoCapture : string -> Capture Frame.

(** The loop feeds the tracker one signal for every sampled index, with the
    timestamp [index / fps], and counts them. *)
Lemma frame_loop_feeds fps frame_skip th : forall frames a m det tr tr' m',
  frame_loop detect fps frame_skip th frames (Z.of_nat a) m det tr = Some (tr', m') ->
  exists signals,
    tr' = feed th signals tr
    /\ m' = (m + List.length signals)%nat
    /\ map timestamp signals
       = map (fun i => inject_Z i / fps) (sampled_indices frame_skip a (List.length frames)).
Proof.
  induction frames as [|frame rest IH]; intros a m det tr tr' m' H.
  - simpl in H. injection H as <- <-. exists []. simpl.
    split; [reflexivity|]. split; [lia | reflexivity].
  - simpl frame_loop in H.
    change (List.length (frame :: rest)) with (S (List.length rest)).
    unfold sampled_indices. simpl seq. simpl map. simpl filter.
    fold (sampled_indices frame_skip (S a) (List.length rest)).
    replace (Z.of_nat a + 1)%Z with (Z.of_nat (S a)) in H by lia.
    destruct (Z.eqb (Z.of_nat a mod frame_skip) 0) eqn:Em; cbn [negb] in H.
    + destruct (Qeq_bool fps 0); [discriminate|].
      destruct (detect det frame) as [[det' [[[gh gv] nf] [[y p] r]]]|];
        [|discriminate].
      destruct (IH (S a) (S m) det' _ tr' m' H) as [signals [Ht [Hm Hts]]].
      exists (mkFrame (inject_Z (Z.of_nat a) / fps) gh gv y p r nf :: signals).
      split; [exact Ht|]. split; [simpl; lia|].
      simpl. now rewrite Hts.
    + destruct (IH (S a) m det tr tr' m' H) as [signals [Ht [Hm Hts]]].
      exists signals. repeat split; assumption.
Qed.

(** The first frame of a capture is always handed to the detectors. *)
Lemma frame_loop_zero_fps frame_skip th frame rest m det tr :
  (1 <= frame_skip)%Z ->
  frame_loop detect 0 frame_skip th (frame :: rest) 0 m det tr = None.
Proof.
  intros _. reflexivity.
Qed.

(** X16.  [process_video] fails with [VideoDownloadError] 5010 when the
    path is a URL whose download fails, with [VideoProcessingError] 5011
    when the capture does not open, and with [VideoProcessingError] 5012
    when the capture opens with a frame rate of 0 and has a frame to read;
    with a frame rate of 0 and no frame it succeeds, with an empty report. *)
Theorem process_video_errors (det : Detector) (video_path session : string)
    (processing_time : Q) :
  let is_url := (String.prefix "http://" video_path
                 || String.prefix "https://" video_path)%bool in
  let source := if is_url then _download_video video_path else Some video_path in
  let run_it := process_video detect _download_video VideoCapture det video_path
                              session processing_time in
  (source = None -> run_it = inr (VideoDownloadError 5010))
  /\ (forall p, source = Some p -> isOpened (VideoCapture p) = false ->
        run_it = inr (VideoProcessingError 5011))
  /\ (forall p, source = Some p -> isOpened (VideoCapture p) = true ->
        CAP_PROP_FPS (VideoCapture p) = 0 ->
        match cap_frames (VideoCapture p) with
        | _ :: _ => run_it = inr (VideoProcessingError 5012)
        | [] => exists r, run_it = inl r /\ gestures r = []
                          /\ frames_processed (processing_metadata r) = 0%nat
        end).
Proof.
  intros is_url source run_it. subst run_it. unfold process_video.
  fold is_url. fold source.
  split; [intros ->; reflexivity|]. split.
  - intros p -> Ho. now rewrite Ho.
  - intros p -> Ho Hf. rewrite Ho, Hf. cbn [negb].
    destruct (cap_frames (VideoCapture p)) as [|frame rest].
    + simpl. eexists. split; [reflexivity|]. split; reflexivity.
    + rewrite frame_loop_zero_fps by apply frame_skip_positive. reflexivity.
Qed.

End ProcessVideoFacts.

(** *** The frames that are analysed *)

Lemma sampled_indices_snoc frame_skip n :
  sampled_indices frame_skip 0 (S n)
  = sampled_indices frame_skip 0 n
    ++ (if Z.eqb (Z.of_nat n mod frame_skip) 0 then [Z.of_nat n] else []).
Proof.
  unfold sampled_indices. rewrite seq_S, map_app, filter_app. reflexivity.
Qed.

(** The sampled frames are frames 0, [frame_skip], 2 [frame_skip], ...: as
    many as it takes to get to the end of the capture. *)
Lemma sampled_indices_multiples frame_skip n :
  (1 <= frame_skip)%Z ->
  exists m,
    sampled_indices frame_skip 0 n
    = map (fun k => (Z.of_nat k * frame_skip)%Z) (seq 0 m)
    /\ (Z.of_nat n <= Z.of_nat m * frame_skip)%Z
    /\ (n = 0%nat -> m = 0%nat)
    /\ ((0 < n)%nat -> ((Z.of_nat m - 1) * frame_skip < Z.of_nat n)%Z).
Proof.
  intro Hs. induction n as [|n [m [Hl [Hub [Hz Hlb]]]]].
  - exists 0%nat. repeat split; try reflexivity; lia.
  - rewrite sampled_indices_snoc, Hl.
    destruct (Z.eqb (Z.of_nat n mod frame_skip) 0) eqn:Em.
    + apply Z.eqb_eq in Em.
      assert (En : Z.of_nat n = (Z.of_nat m * frame_skip)%Z).
      { destruct n as [|n'].
        - rewrite (Hz eq_refl). reflexivity.
        - specialize (Hlb ltac:(lia)).
          apply Z.mod_divide in Em; [|lia]. destruct Em as [q Eq].
          rewrite Eq in Hub, Hlb |- *. f_equal. nia. }
      exists (S m). rewrite seq_S, map_app. cbn [map app Nat.add].
      rewrite <- En. split; [reflexivity|]. split; [lia|].
      split; [discriminate|]. intros _. lia.
    + apply Z.eqb_neq in Em.
      assert (Hn : Z.of_nat n <> (Z.of_nat m * frame_skip)%Z).
      { intro E. apply Em. rewrite E. apply Z.mod_mul. lia. }
      exists m. rewrite app_nil_r.
      split; [reflexivity|]. split; [lia|]. split; [discriminate|].
      intros _. destruct n as [|n']; [rewrite (Hz eq_refl); lia|].
      specialize (Hlb ltac:(lia)). lia.
Qed.

Lemma seq_increasing a n : StronglySorted lt (seq a n).
Proof.
  revert a. induction n as [|n IH]; intro a; simpl; constructor.
  - apply IH.
  - apply Forall_forall. intros x Hx. apply in_seq in Hx. lia.
Qed.

Lemma sorted_map {A B : Type} (R : A -> A -> Prop) (R' : B -> B -> Prop)
    (f : A -> B) l :
  (forall x y, R x y -> R' (f x) (f y)) ->
  StronglySorted R l -> StronglySorted R' (map f l).
Proof.
  intros Hf. induction 1 as [|a l Hl IH Ha]; simpl; constructor.
  - exact IH.
  - apply Forall_map. apply Forall_impl with (2 := Ha). intros; now apply Hf.
Qed.

Lemma multiples_timestamps_sorted fps frame_skip m :
  0 < fps -> (1 <= frame_skip)%Z ->
  StronglySorted Qle
    (map (fun k => inject_Z (Z.of_nat k * frame_skip) / fps) (seq 0 m)).
Proof.
  intros Hf Hs.
  apply sorted_map with (R := lt); [|apply seq_increasing].
  intros x y Hxy.
  assert (Hz : (Z.of_nat x * frame_skip <= Z.of_nat y * frame_skip)%Z) by nia.
  rewrite Zle_Qle in Hz.
  unfold Qdiv. apply Qmult_le_compat_r; [exact Hz|].
  apply Qlt_le_weak. now apply Qinv_lt_0_compat.
Qed.

Section ProcessVideoReport.

Variable Frame : Type.
Variable Detector : Type.
Variable detect : Detector -> Frame -> option (Detector * Detection).
Variable _download_video : string -> option string.
Variable VideoCapture : string -> Capture Frame.

Lemma frame_loop_needs_fps fps frame_skip th frame rest m det tr res :
  frame_loop detect fps frame_skip th (frame :: rest) 0 m det tr = Some res ->
  ~ fps == 0.
Proof.
  intros H E. apply Qeq_bool_iff in E.
  simpl in H. rewrite E in H. discriminate.
Qed.


End ProcessVideoReport.

